(** * motiondetect: the sensor poller, its float formatting, and the SMS connector

    A shallow embedding of [dhtmonitor.py] (the temperature/humidity poller),
    of [mprofi_api_client/connector.py] (the bulk-SMS REST wrapper) and of
    [motiondetect.py] (the motion trigger), together with the Python 2
    builtins they lean on ([round], [str] on floats, [dict.update], [zip]).

    Layout: definitions first ([PyFloat], [Dht], [Mprofi], [MprofiStatus],
    [Motion]), then the facts proved about them ([PyFloatFacts], [DhtFacts],
    [MprofiFacts], [ConnectorFacts], [StatusFacts], [MotionFacts],
    [CycleFacts]). *)

From Stdlib Require Import ZArith String Ascii List Bool Lia DecimalString.
From Stdlib Require Import Floats.SpecFloat.
From stdpp Require Import gmap strings list.

Open Scope Z_scope.

(* ===================================================================== *)
(** ** Python 2 floats: [round(x, n)] and [str(x)]                        *)
(* ===================================================================== *)

Module PyFloat.

(** A Python float is an IEEE 754 binary64 value.  We use the Standard
    Library's specification type: a finite value [S754_finite s m e]
    denotes [(-1)^s * m * 2^e]. *)
Definition prec : Z := 53.
Definition emax : Z := 1024.

Definition is_double (x : spec_float) : bool := valid_binary prec emax x.

(** The binary64 value nearest to the fraction [n/d] (ties to even): what
    a correctly rounded string-to-double conversion returns for the
    decimal [n/d].  [SFdiv]'s core divides the two integer mantissas
    exactly and rounds once, whatever their size. *)
Definition nearest_double (s : bool) (n d : positive) : spec_float :=
  SFdiv prec emax (S754_finite s n 0) (S754_finite false d 0).

(** The magnitude [m * 2^e] as an exact fraction. *)
Definition magnitude (m : positive) (e : Z) : Z * Z :=
  match e with
  | Zneg p => (Zpos m, 2 ^ Zpos p)
  | _ => (Zpos m * 2 ^ e, 1)
  end.

Definition pow10 (n : nat) : Z := 10 ^ Z.of_nat n.

(** Nearest integer to [num/den], halves away from zero (Python 2's
    [round]) and halves to even (the decimal conversion behind [str]). *)
Definition round_half_away (num den : Z) : Z := (2 * num + den) / (2 * den).

Definition round_half_even (num den : Z) : Z :=
  let '(q, r) := Z.div_eucl num den in
  match 2 * r ?= den with
  | Lt => q
  | Gt => q + 1
  | Eq => if Z.even q then q else q + 1
  end.

(** [round(x, ndigits)] for [ndigits >= 0]: nans, infinities and zeros
    round to themselves; beyond 323 digits the value is returned as it is;
    otherwise the value is rounded to a decimal with [ndigits] places
    (halves away from zero) and that decimal is converted back. *)
Definition builtin_round (x : spec_float) (ndigits : nat) : spec_float :=
  match x with
  | S754_finite s m e =>
      if (323 <? ndigits)%nat then x
      else
        let '(num, den) := magnitude m e in
        match round_half_away (num * pow10 ndigits) den with
        | Zpos k => nearest_double s k (Z.to_pos (pow10 ndigits))
        | _ => S754_zero s
        end
  | _ => x
  end.

(** Decimal digits of a non-negative integer. *)
Definition digits10 (n : Z) : string :=
  NilZero.string_of_uint (N.to_uint (Z.to_N n)).

(** [str(n)] of an integer. *)
Definition int_str (n : Z) : string :=
  if n <? 0 then "-" +:+ digits10 (- n) else digits10 n.

(** The position of the decimal point of [num/den] > 0: the [p] with
    [10^(p-1) <= num/den < 10^p]. *)
Definition decimal_point (num den : Z) : Z :=
  if den <=? num then Z.of_nat (String.length (digits10 (num / den)))
  else 1 - Z.of_nat (String.length (digits10 ((den + num - 1) / num - 1))).

(** [num/den] rounded to [nd] significant digits: the digits as an
    integer below [10^nd], and the decimal point position. *)
Definition significant (nd : nat) (num den : Z) : Z * Z :=
  let p := decimal_point num den in
  let sc := Z.of_nat nd - p in
  let q := match sc with
           | Zneg k => round_half_even num (den * 10 ^ Zpos k)
           | _ => round_half_even (num * 10 ^ sc) den
           end in
  if q =? pow10 nd then (pow10 (nd - 1), p + 1) else (q, p).

Fixpoint drop_zeros (l : list ascii) : list ascii :=
  match l with
  | "0"%char :: l' => drop_zeros l'
  | _ => l
  end.

Definition rstrip_zeros (s : string) : string :=
  string_of_list_ascii (rev (drop_zeros (rev (list_ascii_of_string s)))).

Fixpoint zeros (n : nat) : string :=
  match n with
  | O => EmptyString
  | S n' => String "0" (zeros n')
  end.

Definition exponent_text (x : Z) : string :=
  let a := digits10 (Z.abs x) in
  (if x <? 0 then "-" else "+") +:+
  (if (String.length a <? 2)%nat then "0" +:+ a else a).

(** The ['%.12g'] rendering of a positive [num/den] as [str] asks for it:
    [".0"] is added when the fixed-point form would otherwise show no
    decimal point, and the exponent form is used as soon as the integer
    part would take all [nd] digits. *)
Definition format_g (nd : nat) (num den : Z) : string :=
  let '(q, p) := significant nd num den in
  let ds := rstrip_zeros (digits10 q) in
  if (Z.of_nat nd - 1 <? p) || (p <=? -4) then
    match ds with
    | String c EmptyString => String c EmptyString
    | String c rest => String c ("." +:+ rest)
    | EmptyString => EmptyString
    end +:+ "e" +:+ exponent_text (p - 1)
  else if p <=? 0 then "0." +:+ zeros (Z.to_nat (- p)) +:+ ds
  else if (Z.of_nat (String.length ds) <=? p) then
    ds +:+ zeros (Z.to_nat p - String.length ds) +:+ ".0"
  else
    String.substring 0 (Z.to_nat p) ds +:+ "." +:+
    String.substring (Z.to_nat p) (String.length ds - Z.to_nat p) ds.

(** [str(x)] of a float: twelve significant digits. *)
Definition float_str (x : spec_float) : string :=
  match x with
  | S754_nan => "nan"
  | S754_infinity false => "inf"
  | S754_infinity true => "-inf"
  | S754_zero false => "0.0"
  | S754_zero true => "-0.0"
  | S754_finite s m e =>
      let '(num, den) := magnitude m e in
      (if s then "-" else "") +:+ format_g 12 num den
  end.

(** *** One-decimal numerals

    The text the spec expects downstream: for a count [k] of tenths, the
    integer part, a point, and exactly one digit. *)
Definition tenths_text (s : bool) (k : Z) : string :=
  (if s then "-" else "") +:+ digits10 (k / 10) +:+ "." +:+ digits10 (k mod 10).

Definition is_digit (a : ascii) : bool :=
  let n := nat_of_ascii a in (48 <=? n)%nat && (n <=? 57)%nat.

(** One or more digits, a point, one digit, and nothing else. *)
Fixpoint digits_point_digit (seen : bool) (s : string) : bool :=
  match s with
  | String "." (String d EmptyString) => seen && is_digit d
  | String a s' => is_digit a && digits_point_digit true s'
  | EmptyString => false
  end.

Definition one_decimal (s : string) : bool :=
  match s with
  | String "-" s' => digits_point_digit false s'
  | _ => digits_point_digit false s
  end.

(** A DHT22 transmits each quantity as a 16-bit count of tenths, so a
    reading has magnitude at most 6553.5. *)
Definition max_tenths : Z := 65535.

Definition sensor_range (x : spec_float) : bool :=
  match x with
  | S754_zero _ => true
  | S754_finite _ m e =>
      let '(num, den) := magnitude m e in 10 * num <=? max_tenths * den
  | _ => false
  end.

(** The sign of a float and its count of tenths (halves away from zero). *)
Definition sign_of (x : spec_float) : bool :=
  match x with
  | S754_zero s | S754_infinity s | S754_finite s _ _ => s
  | S754_nan => false
  end.

Definition tenths (x : spec_float) : Z :=
  match x with
  | S754_finite _ m e =>
      let '(num, den) := magnitude m e in round_half_away (num * 10) den
  | _ => 0
  end.

Definition with_sign (s : bool) (x : spec_float) : spec_float :=
  match x with
  | S754_zero _ => S754_zero s
  | S754_infinity _ => S754_infinity s
  | S754_nan => S754_nan
  | S754_finite _ m e => S754_finite s m e
  end.

(** The check run on every count of tenths in the sensor's range: the
    nearest double prints as the one-decimal numeral of the count. *)
Definition tenths_ok (k : Z) : bool :=
  match k with
  | Zpos p =>
      match nearest_double false p 10 with
      | S754_finite _ m e =>
          String.eqb (float_str (S754_finite false m e)) (tenths_text false k)
          && digits_point_digit false (tenths_text false k)
      | _ => false
      end
  | _ => false
  end.

(** [tenths_ok] on the [n] counts from [lo] on. *)
Fixpoint check_range (n : nat) (lo : Z) : bool :=
  match n with
  | O => true
  | S n' => tenths_ok lo && check_range n' (lo + 1)
  end.

End PyFloat.

(* ===================================================================== *)
(** ** dhtmonitor.py: the sensor delivery loop                            *)
(* ===================================================================== *)

Module Dht.
Import PyFloat.

(** *** Values, exceptions, observable events *)

(** What [Adafruit_DHT.read_retry] hands back for one quantity: a float,
    or [None] when every retry failed. *)
Inductive pyval :=
| PyNone
| PyFloat (x : spec_float).

(** The exceptions the loop distinguishes.  [HTTPError] is a subclass of
    [URLError]; [NonException] stands for the [BaseException]s that are
    not [Exception]s ([KeyboardInterrupt], [SystemExit]). *)
Inductive exn :=
| HTTPError (code : Z)
| URLError (reason : string)
| HTTPException
| TypeError
| NameError (name : string)
| OtherException (cls : string)
| NonException (cls : string).

Definition is_HTTPError (e : exn) : bool :=
  match e with HTTPError _ => true | _ => false end.

Definition is_URLError (e : exn) : bool :=
  match e with HTTPError _ | URLError _ => true | _ => false end.

Definition is_HTTPException (e : exn) : bool :=
  match e with HTTPException => true | _ => false end.

Definition is_Exception (e : exn) : bool :=
  match e with NonException _ => false | _ => true end.

(** [sys.exc_info()[0]] as [print] shows it. *)
Definition type_repr (e : exn) : string :=
  match e with
  | HTTPError _ => "<class 'urllib2.HTTPError'>"
  | URLError _ => "<class 'urllib2.URLError'>"
  | HTTPException => "<class 'httplib.HTTPException'>"
  | TypeError => "<type 'exceptions.TypeError'>"
  | NameError _ => "<type 'exceptions.NameError'>"
  | OtherException cls => cls
  | NonException cls => cls
  end.

(** One MQTT message of [publish.multiple]: [(topic, payload, qos, retain)]. *)
Record message := Message {
  topic : string;
  payload : string;
  qos : Z;
  retain : bool
}.

Inductive event :=
| Print (text : string)
| ReadRetry (pin : Z)
| UrlOpen (url : string)
| Close
| PublishMultiple (msgs : list message) (hostname : string) (port : Z)
    (client_id : string) (keepalive : Z) (auth : string * string)
| LogError (text : string)
| Sleep (seconds : Z).

(** *** Computations: a trace of events and a value or a raised exception *)

Definition M (A : Type) : Type := list event * (exn + A).

#[export] Instance M_ret : MRet M := λ A a, ([], inr a).

#[export] Instance M_bind : MBind M := λ A B f m,
  match m.2 with
  | inl e => (m.1, inl e)
  | inr a => (m.1 ++ (f a).1, (f a).2)
  end.

Definition raise {A} (e : exn) : M A := ([], inl e).

Definition emit (ev : event) : M unit := ([ev], inr ()).

(** An external call: it is observed, and then returns or raises. *)
Definition call (ev : event) (outcome : option exn) : M unit :=
  ([ev], match outcome with Some e => inl e | None => inr () end).

(** [try: body / except ...: handler]. *)
Definition try_except {A} (body : M A) (handler : exn → M A) : M A :=
  match body.2 with
  | inl e => (body.1 ++ (handler e).1, (handler e).2)
  | inr a => body
  end.

Definition trace {A} (m : M A) : list event := m.1.
Definition outcome {A} (m : M A) : exn + A := m.2.

(** *** The outside world during one iteration *)

Inductive read_result :=
| Returns (RH T : pyval)
| ReadRaises (e : exn).

(** The outcome of every external call of one iteration: the hardware
    read for each pin, the HTTP request and its [close], the broker
    publish. *)
Record world := World {
  read_retry : Z → read_result;
  urlopen : option exn;
  close : option exn;
  publish_multiple : option exn
}.

(** The names [from dhtmonitor_conf import *] brings in.  That module is
    not among the sources, so it is a parameter: five settings, and
    whether it also binds [checksLogger] (a logger) and [httplib], which
    the handlers use and the script itself never defines or imports. *)
Record conf := Conf {
  thingspeak_baseURL : string;
  mqtt_server : string;
  mqtt_port : Z;
  mqtt_uname : string;
  mqtt_pw : string;
  checksLogger : bool;
  httplib : bool
}.

(** ["template" % (args)] with [%s] place holders only; a wrong number of
    arguments is a [TypeError]. *)
Fixpoint interpolate (template : string) (args : list string) : option string :=
  match template with
  | String "%" (String "s" rest) =>
      match args with
      | a :: args' => String.append a <$> interpolate rest args'
      | [] => None
      end
  | String c rest => String c <$> interpolate rest args
  | EmptyString => match args with [] => Some EmptyString | _ => None end
  end.

Definition percent (template : string) (args : list string) : M string :=
  match interpolate template args with
  | Some s => mret s
  | None => raise TypeError
  end.

(** [round(v, n)]: a float is required. *)
Definition py_round (v : pyval) (ndigits : nat) : M spec_float :=
  match v with
  | PyNone => raise TypeError
  | PyFloat x => mret (builtin_round x ndigits)
  end.

Section Program.
Variable c : conf.
(** [traceback.format_exc()], whose text depends on the interpreter's
    stack. *)
Variable format_exc : exn → string.

Definition call_read_retry (w : world) (pin : Z) : M (pyval * pyval) :=
  emit (ReadRetry pin);;
  match read_retry w pin with
  | Returns RH T => mret (RH, T)
  | ReadRaises e => raise e
  end.

(** [getSensorData(pin)] *)
Definition getSensorData (w : world) (pin : Z) : M (string * string) :=
  '(RH, T) ← call_read_retry w pin;
  rh ← py_round RH 1;
  t ← py_round T 1;
  mret (float_str rh, float_str t).

(** [checksLogger.error(text)]: a [NameError] when nothing binds the name. *)
Definition checksLogger_error (text : string) : M unit :=
  if checksLogger c then emit (LogError text) else raise (NameError "checksLogger").

Definition fields_template : string :=
  "&field1=%s&field2=%s&field3=%s&field4=%s&field5=%s&field6=%s&field7=%s&field8=%s".

(** The six retained messages built from the readings. *)
Definition msgs (T T2 RH2 T3 RH3 T4 : string) : list message :=
  [ Message "/temperature/garden" T 0 true;
    Message "/temperature/taras" T2 0 true;
    Message "/hummidity/taras" RH2 0 true;
    Message "/temperature/loundry" T3 0 true;
    Message "/hummidity/loundry" RH3 0 true;
    Message "/temperature/front" T4 0 true ].

(** The body of the inner [try]: the HTTP request, its [close], and the
    broker publish, in this order. *)
Definition deliver (w : world) (RH T RH2 T2 RH3 T3 RH4 T4 : string) : M unit :=
  query ← percent fields_template [T; RH; T2; RH2; T3; RH3; T4; RH4];
  call (UrlOpen (thingspeak_baseURL c +:+ query)) (urlopen w);;
  call Close (close w);;
  call (PublishMultiple (msgs T T2 RH2 T3 RH3 T4)
          (mqtt_server c) (mqtt_port c) "" 60 (mqtt_uname c, mqtt_pw c))
       (publish_multiple w).

(** The four [except] clauses of the inner [try], tried in order.  The
    class expression of a clause is evaluated only when the clause is
    reached, so [httplib.HTTPException] raises [NameError] there when
    [httplib] is not bound. *)
Definition handlers (e : exn) : M unit :=
  if is_HTTPError e then
    checksLogger_error ("HTTPError = " +:+
      match e with HTTPError code => int_str code | _ => "" end)
  else if is_URLError e then
    checksLogger_error ("URLError = " +:+
      match e with URLError reason => reason | _ => "" end)
  else if negb (httplib c) then raise (NameError "httplib")
  else if is_HTTPException e then checksLogger_error "HTTPException"
  else if is_Exception e then
    checksLogger_error ("generic exception: " +:+ format_exc e)
  else raise e.

(** The body of the outer [try]. *)
Definition cycle (w : world) : M unit :=
  '(RH, T) ← getSensorData w 2;
  '(RH2, T2) ← getSensorData w 3;
  '(RH3, T3) ← getSensorData w 4;
  '(RH4, T4) ← getSensorData w 17;
  try_except (deliver w RH T RH2 T2 RH3 T3 RH4 T4) handlers;;
  call (Sleep 600) None.

(** One pass of [while True]: the outer [try] with its bare [except]. *)
Definition iteration (w : world) : M unit :=
  try_except (cycle w) (λ e, emit (Print ("error:  " +:+ type_repr e))).

(** [main()] run against the worlds of its first iterations. *)
Fixpoint loop (ws : list world) : M unit :=
  match ws with
  | [] => mret ()
  | w :: ws' => iteration w;; loop ws'
  end.

Definition main (ws : list world) : M unit :=
  emit (Print "starting...");; loop ws.

End Program.

(** *** Reading a trace *)

Definition pins_read (t : list event) : list Z :=
  omap (λ ev, match ev with ReadRetry pin => Some pin | _ => None end) t.

Definition http_requests (t : list event) : list string :=
  omap (λ ev, match ev with UrlOpen url => Some url | _ => None end) t.

Definition broker_calls (t : list event) : list event :=
  omap (λ ev, match ev with PublishMultiple _ _ _ _ _ _ => Some ev | _ => None end) t.

Definition logged (t : list event) : list string :=
  omap (λ ev, match ev with LogError text => Some text | _ => None end) t.

Definition sleeps (t : list event) : list Z :=
  omap (λ ev, match ev with Sleep n => Some n | _ => None end) t.

(** *** The batch of one cycle, as the spec speaks of it *)

(** The sensor pins, in the order [main] reads them. *)
Definition channels : list Z := [2; 3; 4; 17].

(** The reading of a channel: humidity and temperature as text, when the
    hardware read gave two floats. *)
Definition reading (w : world) (pin : Z) : option (string * string) :=
  match read_retry w pin with
  | Returns (PyFloat RH) (PyFloat T) =>
      Some (float_str (builtin_round RH 1), float_str (builtin_round T 1))
  | _ => None
  end.

(** The readings of all four channels, when every one succeeded. *)
Definition batch (w : world)
  : option ((string * string) * (string * string) * (string * string) * (string * string)) :=
  r1 ← reading w 2; r2 ← reading w 3; r3 ← reading w 4; r4 ← reading w 17;
  Some (r1, r2, r3, r4).

(** Whether the HTTP request and its [close] both went through, so that
    the inner [try] reaches the publish. *)
Definition delivered (w : world) : bool :=
  match urlopen w, close w with
  | None, None => true
  | _, _ => false
  end.

(** The pins read before the first failed acquisition, that one included. *)
Fixpoint acquired_prefix (w : world) (pins : list Z) : list Z :=
  match pins with
  | [] => []
  | pin :: pins' =>
      pin :: if reading w pin is Some _ then acquired_prefix w pins' else []
  end.

(** The query string of the request: one positional field per value. *)
Definition query (a b c d e f g h : string) : string :=
  "&field1=" +:+ a +:+ "&field2=" +:+ b +:+ "&field3=" +:+ c +:+
  "&field4=" +:+ d +:+ "&field5=" +:+ e +:+ "&field6=" +:+ f +:+
  "&field7=" +:+ g +:+ "&field8=" +:+ h.

(** *** Sample data: four channels reading (61.3 %, 22.5), (55.5 %, 19.0),
    (48.0 %, 21.4) and (70.2 %, 17.8) *)

Definition sample_conf : conf :=
  Conf "https://api.thingspeak.com/update?key=KEY" "broker.local" 1883 "user" "secret"
    true true.

Definition sample_format_exc (e : exn) : string := "Traceback (most recent call last): ...".

Definition tenth (k : positive) : pyval := PyFloat (nearest_double false k 10).

Definition sample_read (pin : Z) : read_result :=
  if pin =? 2 then Returns (tenth 613) (tenth 225)
  else if pin =? 3 then Returns (tenth 555) (tenth 190)
  else if pin =? 4 then Returns (tenth 480) (tenth 214)
  else Returns (tenth 702) (tenth 178).


(** The same, with the third channel (pin 4) failing every retry. *)
Definition failing_read (pin : Z) : read_result :=
  if pin =? 4 then Returns PyNone PyNone else sample_read pin.

End Dht.

(* ===================================================================== *)
(** ** mprofi_api_client/connector.py: the SMS connector                  *)
(* ===================================================================== *)

Module Mprofi.

(** *** Python values *)

(** The values that reach [send]: strings given by the caller and the
    decoded JSON body of the API's answer (numbers are integers; a
    [PDict] lists the items of a decoded object, keys distinct, in the
    order the dictionary iterates them). *)
Inductive pyval :=
| PNone
| PBool (b : bool)
| PInt (n : Z)
| PStr (s : string)
| PList (l : list pyval)
| PDict (items : list (string * pyval)).

(** Keys of a mutable dictionary, up to Python's [==] ([True] and [1]
    are the same key). *)
Inductive pykey :=
| KNone
| KInt (n : Z)
| KStr (s : string).

#[export] Instance pykey_eq_dec : EqDecision pykey.
Proof. solve_decision. Defined.

#[export] Instance pykey_countable : Countable pykey.
Proof.
  refine (inj_countable'
    (λ k, match k with KNone => inl () | KInt n => inr (inl n) | KStr s => inr (inr s) end)
    (λ x, match x with inl _ => KNone | inr (inl n) => KInt n | inr (inr s) => KStr s end)
    _).
  by intros [].
Defined.

(** A message is a dictionary object; the connector's lists hold
    references to such objects, so that an update through one name is
    seen through every other. *)
Abbreviation dict := (gmap pykey pyval).
Abbreviation loc := positive.
Abbreviation heap := (gmap loc dict).

Inductive exn :=
| ValueError (text : string)
| TypeError
| KeyError (key : string)
| AttributeError (name : string)
| ConnectionError
| HTTPError
| JSONDecodeError
| MprofiConnectionError (text : string)
| MprofiAuthError (text : string)
| OtherException (cls : string).

(** *** The connector object and the store *)

Record state := State {
  token : string;
  payload : list loc;
  response : list loc;
  store : heap
}.

(** What [session.post] is given as [data]: the single message itself,
    or a new dictionary wrapping the list of messages. *)
Inductive form :=
| FormMessage (d : dict)
| FormBulk (messages : list dict) (reference : option pyval).

Inductive event :=
| Post (url : string) (data : form).

(** The answer to the request: an exception raised by [session.post], or
    a response with its status code and its body ([None] when the body
    is not JSON). *)
Inductive post_result :=
| PostRaises (e : exn)
| PostResponse (status : Z) (body : option pyval).

(** *** Computations over the connector: trace, final state, value or
    exception.  The state survives a raise. *)
Definition M (A : Type) : Type := state → list event * state * (exn + A).

#[export] Instance M_ret : MRet M := λ A a st, ([], st, inr a).

#[export] Instance M_bind : MBind M := λ A B f m st,
  let '(t1, st1, r) := m st in
  match r with
  | inl e => (t1, st1, inl e)
  | inr a => let '(t2, st2, r2) := f a st1 in (t1 ++ t2, st2, r2)
  end.

Definition raise {A} (e : exn) : M A := λ st, ([], st, inl e).

Definition try_except {A} (body : M A) (handler : exn → M A) : M A := λ st,
  let '(t1, st1, r) := body st in
  match r with
  | inl e => let '(t2, st2, r2) := handler e st1 in (t1 ++ t2, st2, r2)
  | inr a => (t1, st1, inr a)
  end.

Definition get {A} (f : state → A) : M A := λ st, ([], st, inr (f st)).

Definition set_payload (l : list loc) : M unit := λ st,
  ([], State (token st) l (response st) (store st), inr ()).

Definition set_response (l : list loc) : M unit := λ st,
  ([], State (token st) (payload st) l (store st), inr ()).

Definition set_store (h : heap) : M unit := λ st,
  ([], State (token st) (payload st) (response st) h, inr ()).

(** The dictionary behind a reference (an empty one for a dangling
    reference, which the connector never creates). *)
Definition deref (h : heap) (l : loc) : dict := default ∅ (h !! l).

(** *** Builtins: subscripting, iteration, [dict.update] *)

(** [r[key]] for a string [key]. *)
Definition getitem (r : pyval) (key : string) : exn + pyval :=
  match r with
  | PDict items =>
      match list_find (λ kv, kv.1 = key) items with
      | Some (_, (_, v)) => inr v
      | None => inl (KeyError key)
      end
  | _ => inl TypeError
  end.

Fixpoint chars (s : string) : list pyval :=
  match s with
  | EmptyString => []
  | String a s' => PStr (String a EmptyString) :: chars s'
  end.

(** The elements [zip] or [dict.update] draw from an iterable. *)
Definition iterate (v : pyval) : exn + list pyval :=
  match v with
  | PList l => inr l
  | PStr s => inr (chars s)
  | PDict items => inr ((λ kv, PStr kv.1) <$> items)
  | _ => inl TypeError
  end.

Definition as_key (k : pyval) : exn + pykey :=
  match k with
  | PNone => inr KNone
  | PBool b => inr (KInt (if b then 1 else 0))
  | PInt n => inr (KInt n)
  | PStr s => inr (KStr s)
  | _ => inl TypeError
  end.

(** One element of an update sequence: it must iterate to exactly two
    values, the key hashable. *)
Definition as_item (e : pyval) : exn + (pykey * pyval) :=
  match iterate e with
  | inl _ => inl TypeError
  | inr [k; v] =>
      match as_key k with
      | inr k' => inr (k', v)
      | inl err => inl err
      end
  | inr _ => inl (ValueError "dictionary update sequence element has the wrong length")
  end.

(** Items are stored one by one; a bad element stops the update and
    leaves the earlier ones in. *)
Fixpoint update_items (d : dict) (l : list pyval) : dict * option exn :=
  match l with
  | [] => (d, None)
  | e :: l' =>
      match as_item e with
      | inr (k, v) => update_items (<[k := v]> d) l'
      | inl err => (d, Some err)
      end
  end.

(** [d.update(other)] *)
Definition dict_update (d : dict) (other : pyval) : dict * option exn :=
  match other with
  | PDict items => (foldl (λ acc kv, <[KStr kv.1 := kv.2]> acc) d items, None)
  | PList l => update_items d l
  | PStr s => update_items d (chars s)
  | _ => (d, Some TypeError)
  end.

(** [sent_message.update(other)] on the object behind [l]. *)
Definition update_at (l : loc) (other : pyval) : M unit := λ st,
  let '(d, err) := dict_update (deref (store st) l) other in
  ([], State (token st) (payload st) (response st) (<[l := d]> (store st)),
   match err with Some e => inl e | None => inr () end).

Definition lift {A} (r : exn + A) : M A := λ st, ([], st, r).

Fixpoint for_each {A} (l : list A) (body : A → M unit) : M unit :=
  match l with
  | [] => mret ()
  | x :: l' => body x;; for_each l' body
  end.

Fixpoint join (sep : string) (parts : list string) : string :=
  match parts with
  | [] => EmptyString
  | [p] => p
  | p :: rest => p +:+ sep +:+ join sep rest
  end.

(** *** The class *)

Definition url_base : string := "https://api.mprofi.pl".
Definition api_version : string := "1.0".
Definition send_endpoint : string := "send".
Definition sendbulk_endpoint : string := "sendbulk".

(** [__init__(api_token, payload)] with the given messages already
    allocated. *)
Definition init (api_token : string) (messages : list loc) (h : heap) : state :=
  State api_token messages [] h.

(** [add_message(recipient, message)] *)
Definition add_message (recipient message : string) : M unit :=
  if decide (recipient = EmptyString) then raise (ValueError "`recipient` can't be empty.")
  else if decide (message = EmptyString) then raise (ValueError "`message` can't be empty.")
  else
    h ← get store;
    p ← get payload;
    let l := fresh (dom h) in
    set_store (<[l := {[ KStr "recipient" := PStr recipient; KStr "message" := PStr message ]}]> h);;
    set_payload (p ++ [l]).

(** [Response.raise_for_status] of the requests package the connector
    vendors: [HTTPError] for a client or server error status (400 to 599),
    nothing for any other status. *)
Definition raise_for_status (status : Z) : M unit :=
  if (400 <=? status) && (status <? 600) then raise HTTPError else mret ().

Section Send.
(** The answer the API gives to the request of this call. *)
Variable answer : post_result.
(** Whether the [json] module the vendored requests package re-exports
    has a [JSONDecodeError] (simplejson has, Python 2's own does not). *)
Variable has_JSONDecodeError : bool.

(** [self.session.post(full_url, data=full_payload, verify=True)]: the
    data is what the dictionary holds at the time of the call. *)
Definition session_post (url : string) (data : form) : M (Z * option pyval) := λ st,
  ([Post url data], st,
   match answer with
   | PostRaises e => inl e
   | PostResponse status body => inr (status, body)
   end).

(** [response.json()] *)
Definition response_json (body : option pyval) : M pyval :=
  match body with
  | Some v => mret v
  | None => raise (if has_JSONDecodeError then JSONDecodeError
                   else ValueError "No JSON object could be decoded")
  end.

Definition cant_reach : string :=
  "Can't reach https://api.mprofi.pl, please check internet connection.".
Definition auth_failed : string :=
  "Calling https://api.mprofi.pl resulted in an error. Did you set proper, active, token?".

(** [send(reference)] *)
Definition send (reference : option pyval) : M pyval :=
  p ← get payload;
  '(used_endpoint, full_payload, extract_from_response) ←
    (if (length p =? 1)%nat then
       let m := default 1%positive (head p) in
       match reference with
       | Some r => update_at m (PDict [("reference", r)])
       | None => mret ()
       end;;
       mret (send_endpoint, inl m,
             λ r, match getitem r "id" with
                  | inr v => inr (PList [PDict [("id", v)]])
                  | inl e => inl e
                  end)
     else if (1 <? length p)%nat then
       mret (sendbulk_endpoint, inr reference, λ r, getitem r "result")
     else raise (ValueError "Empty payload. Please use `add_message` first."));
  let full_url := join "/" [url_base; api_version; used_endpoint; ""] in
  resp ← try_except
    (h ← get store;
     resp ← session_post full_url
       match full_payload with
       | inl m => FormMessage (deref h m)
       | inr ref => FormBulk (deref h <$> p) ref
       end;
     raise_for_status resp.1;;
     mret resp)
    (λ e, match e with
          | ConnectionError => raise (MprofiConnectionError cant_reach)
          | HTTPError => raise (MprofiAuthError auth_failed)
          | _ => raise e
          end);
  decoded ← try_except (response_json resp.2)
    (λ e, if negb has_JSONDecodeError then raise (AttributeError "JSONDecodeError")
          else match e with
               | JSONDecodeError => raise (MprofiConnectionError cant_reach)
               | _ => raise e
               end);
  set_response p;;
  set_payload [];;
  sent ← get response;
  results ← lift (extract_from_response decoded);
  received ← lift (iterate results);
  for_each (zip sent received) (λ '(sent_message, response_message),
    update_at sent_message response_message);;
  mret decoded.

End Send.

(** *** Reading a call of [send] *)

(** The store once a lone message has been given its reference: [send]
    writes it into the stored message before the request. *)
Definition with_reference (reference : option pyval) (st : state) : state :=
  match payload st, reference with
  | [m], Some r =>
      State (token st) (payload st) (response st)
        (<[m := <[KStr "reference" := r]> (deref (store st) m)]> (store st))
  | _, _ => st
  end.

Definition request_url (st : state) : string :=
  match payload st with
  | [_] => "https://api.mprofi.pl/1.0/send/"
  | _ => "https://api.mprofi.pl/1.0/sendbulk/"
  end.

Definition request_form (reference : option pyval) (st : state) : form :=
  match payload st with
  | [m] => FormMessage (deref (store (with_reference reference st)) m)
  | p => FormBulk (deref (store st) <$> p) reference
  end.

(** The loop over [zip(self.response, results)] as a function on the
    store: each message takes the items of its result, until one update
    fails. *)
Fixpoint absorb (h : heap) (pairs : list (loc * pyval)) : heap * option exn :=
  match pairs with
  | [] => (h, None)
  | (m, rm) :: rest =>
      let '(d, err) := dict_update (deref h m) rm in
      match err with
      | Some e => (<[m := d]> h, Some e)
      | None => absorb (<[m := d]> h) rest
      end
  end.

(** What the request and the decoding of its answer come to: the decoded
    body, or the exception [send] raises in its place. *)
Definition exchange (answer : post_result) (has_JSONDecodeError : bool) : exn + pyval :=
  match answer with
  | PostRaises ConnectionError => inl (MprofiConnectionError cant_reach)
  | PostRaises HTTPError => inl (MprofiAuthError auth_failed)
  | PostRaises e => inl e
  | PostResponse status body =>
      if (400 <=? status) && (status <? 600) then inl (MprofiAuthError auth_failed)
      else
        match body with
        | Some v => inr v
        | None =>
            inl (if has_JSONDecodeError then MprofiConnectionError cant_reach
                 else AttributeError "JSONDecodeError")
        end
  end.

(** The per-message results read off the decoded body. *)
Definition extracted (st : state) (v : pyval) : exn + list pyval :=
  match payload st with
  | [_] =>
      match getitem v "id" with
      | inr i => inr [PDict [("id", i)]]
      | inl e => inl e
      end
  | _ =>
      match getitem v "result" with
      | inr r => iterate r
      | inl e => inl e
      end
  end.

(** The exceptions the docstring of [send] announces. *)
Definition announced (e : exn) : bool :=
  match e with
  | ValueError text => String.eqb text "Empty payload. Please use `add_message` first."
  | MprofiConnectionError _ | MprofiAuthError _ => true
  | _ => false
  end.

(** *** Sample data: a connector holding one message, and one holding two *)

Definition one_message : state :=
  (add_message "111222333" "Welcome!" (init "token" [] ∅)).1.2.

Definition two_messages : state :=
  (add_message "444555666" "Hello!" one_message).1.2.

End Mprofi.

(* ===================================================================== *)
(** ** connector.py: [get_status]                                         *)
(* ===================================================================== *)

Module MprofiStatus.
Import Mprofi.

(** [get_status] only reads the connector: the ids come from the messages
    of [self.response], and nothing is assigned to [self].  It is a
    function of the state to the requests issued and a result. *)

Inductive request :=
| Get (url : string) (message_id : pyval).

(** The exceptions of [get_status]: those [send] knows, the
    [MprofiNotFoundError] raised for a 404 (its text names the message id,
    which is kept here in place of the text), and [UnboundLocalError] for a
    local variable read before any assignment. *)
Inductive exn :=
| Raised (e : Mprofi.exn)
| MprofiNotFoundError (message_id : pyval)
| UnboundLocalError (name : string).

Definition R (A : Type) : Type := list request * (exn + A).

#[export] Instance R_ret : MRet R := λ A a, ([], inr a).

#[export] Instance R_bind : MBind R := λ A B f m,
  match m.2 with
  | inl e => (m.1, inl e)
  | inr a => (m.1 ++ (f a).1, (f a).2)
  end.

Definition raise {A} (e : exn) : R A := ([], inl e).

Definition try_except {A} (body : R A) (handler : exn → R A) : R A :=
  match body.2 with
  | inl e => (body.1 ++ (handler e).1, (handler e).2)
  | inr a => body
  end.

Definition status_endpoint : string := "status".

Definition status_full_url : string :=
  join "/" [url_base; api_version; status_endpoint; ""].

(** [response.raise_for_status()], as in [Mprofi]. *)
Definition raise_for_status (status : Z) : R unit :=
  if (400 <=? status) && (status <? 600) then raise (Raised HTTPError) else mret ().

(** [[sent_msg['id'] for sent_msg in self.response]]: the first message
    without an [id] raises [KeyError]. *)
Fixpoint collect_ids (h : heap) (sent : list loc) : R (list pyval) :=
  match sent with
  | [] => mret []
  | sent_msg :: rest =>
      match deref h sent_msg !! KStr "id" with
      | Some i => ids ← collect_ids h rest; mret (i :: ids)
      | None => raise (Raised (KeyError "id"))
      end
  end.

Section Status.
(** The answer to the [n]-th request of the call. *)
Variable answers : nat → post_result.
Variable has_JSONDecodeError : bool.

Definition session_get (n : nat) (url : string) (message_id : pyval) : R (Z * option pyval) :=
  ([Get url message_id],
   match answers n with
   | PostRaises e => inl (Raised e)
   | PostResponse status body => inr (status, body)
   end).

(** The [except] clauses of the first [try]; [response] is the local
    variable as it stands when the exception arrives: the response of this
    request once [session.get] has returned, the one of the request before
    (or nothing at all) when [session.get] itself raised. *)
Definition handlers {A} (message_id : pyval) (response : option (Z * option pyval))
    (e : exn) : R A :=
  match e with
  | Raised ConnectionError => raise (Raised (MprofiConnectionError cant_reach))
  | Raised HTTPError =>
      match response with
      | None => raise (UnboundLocalError "response")
      | Some r =>
          if negb (r.1 =? 404) then raise (Raised (MprofiAuthError auth_failed))
          else raise (MprofiNotFoundError message_id)
      end
  | _ => raise e
  end.

(** The second [try]: decode the body and store it under the id. *)
Definition store_decoded (message_id : pyval) (body : option pyval) (collected : dict) : R dict :=
  try_except
    (decoded ← match body with
               | Some v => mret v
               | None => raise (Raised (if has_JSONDecodeError then JSONDecodeError
                                         else ValueError "No JSON object could be decoded"))
               end;
     match as_key message_id with
     | inr key => mret (<[key := decoded]> collected)
     | inl e => raise (Raised e)
     end)
    (λ e, if negb has_JSONDecodeError then raise (Raised (AttributeError "JSONDecodeError"))
          else match e with
               | Raised JSONDecodeError => raise (Raised (MprofiConnectionError cant_reach))
               | _ => raise e
               end).

(** The [for] loop, from the [n]-th request on. *)
Fixpoint status_loop (n : nat) (requested_ids : list pyval)
    (response : option (Z * option pyval)) (collected : dict) : R dict :=
  match requested_ids with
  | [] => mret collected
  | message_id :: rest =>
      response' ← try_except (session_get n status_full_url message_id)
                    (handlers message_id response);
      try_except (raise_for_status response'.1) (handlers message_id (Some response'));;
      collected' ← store_decoded message_id response'.2 collected;
      status_loop (S n) rest (Some response') collected'
  end.

(** [get_status(requested_ids)] *)
Definition get_status (requested_ids : option (list pyval)) (st : state) : R dict :=
  requested_ids ← match requested_ids with
                  | Some ids => mret ids
                  | None => collect_ids (store st) (response st)
                  end;
  status_loop 0 requested_ids None ∅.

End Status.

(** *** Reading a call of [get_status] *)

(** An answer after which the loop goes on to the next id: a response
    without an error status, with a JSON body, for a hashable id. *)
Definition answered (a : post_result) (message_id : pyval) : bool :=
  match a, as_key message_id with
  | PostResponse status (Some _), inr _ => negb ((400 <=? status) && (status <? 600))
  | _, _ => false
  end.

(** The first [n] requests of a call are all answered so. *)
Definition served (answers : nat → post_result) (ids : list pyval) (n : nat) : Prop :=
  ∀ i message_id, (i < n)%nat → ids !! i = Some message_id →
    answered (answers i) message_id = true.

(** *** Sample data: an API that knows every message but number 13, and
    the connector once two messages have been sent and given ids 12, 13 *)

Definition sample_answers (answer13 : post_result) (n : nat) : post_result :=
  match n with
  | 1%nat => answer13
  | _ => PostResponse 200 (Some (PDict [("status", PStr "DELIVERED")]))
  end.

Definition two_sent : state :=
  (send (PostResponse 200 (Some (PDict [("result", PList [PDict [("id", PInt 12)];
                                                          PDict [("id", PInt 13)]])])))
     true None two_messages).1.2.

End MprofiStatus.

(* ===================================================================== *)
(** ** motiondetect.py: the motion trigger                                *)
(* ===================================================================== *)

Module Motion.

Inductive exn :=
| SystemExit (code : Z)
| Connector (e : Mprofi.exn)
| OtherException (cls : string).

Inductive event :=
| Print (text : string)
| Setmode
| Setup (pin : Z)
| UsernamePwSet (username password : string)
| GpioInput (pin : Z)
| UrlOpen (url : string)
| Connect (host : string) (port : Z) (keepalive : Z)
| LoopForever
| Subscribe (topic : string)
| Disconnect
| Sms (ev : Mprofi.event)
| Sleep (seconds : Z).

Definition M (A : Type) : Type := list event * (exn + A).

#[export] Instance M_ret : MRet M := λ A a, ([], inr a).

#[export] Instance M_bind : MBind M := λ A B f m,
  match m.2 with
  | inl e => (m.1, inl e)
  | inr a => (m.1 ++ (f a).1, (f a).2)
  end.

Definition raise {A} (e : exn) : M A := ([], inl e).

Definition emit (ev : event) : M unit := ([ev], inr ()).

Definition call (ev : event) (outcome : option exn) : M unit :=
  ([ev], match outcome with Some e => inl e | None => inr () end).

Definition trace {A} (m : M A) : list event := m.1.
Definition outcome {A} (m : M A) : exn + A := m.2.

(** A method call on the connector: its requests are observed, its
    exception is raised, and the connector is left in its new state. *)
Definition connector_call {A} (m : Mprofi.M A) (connector : Mprofi.state)
    : M (A * Mprofi.state) :=
  (Sms <$> (m connector).1.1,
   match (m connector).2 with
   | inl e => inl (Connector e)
   | inr a => inr (a, (m connector).1.2)
   end).

(** The names [from motiondetect_conf import *] brings in; that module is
    not among the sources. *)
Record conf := Conf {
  gpio_pin : Z;
  thingspeak_baseURL : string;
  thingspeak_field : string;
  mqtt_server : string;
  mqtt_port : Z;
  mqtt_uname : string;
  mqtt_pw : string;
  mqtt_topic : string;
  mprofi_key : string;
  mprofi_recipient : string;
  mprofi_message : string;
  mprofi_ref : option Mprofi.pyval
}.

(** The outside world during one run of the script: the level of the pin
    at each poll, the outcome of the calls made on detection, and, for the
    message callback, the hour of the clock ([int(time.strftime("%H"))]),
    the [MPROFI_API_TOKEN] of the environment and the SMS API's answer. *)
Record world := World {
  gpio : nat → Z;
  urlopen : option exn;
  connect : option exn;
  loop_forever : option exn;
  clock_hour : Z;
  environ_token : string;
  sms_answer : Mprofi.post_result;
  has_JSONDecodeError : bool
}.

Definition newline : string := String (ascii_of_nat 10) EmptyString.

Section Script.
Variable c : conf.
Variable w : world.

(** [on_connect(client, userdata, rc)] *)
Definition on_connect (rc : Z) : M unit :=
  emit (Print ("Connected with result code " +:+ PyFloat.int_str rc));;
  emit (Subscribe (mqtt_topic c)).

(** The condition under which [on_message] sends the SMS. *)
Definition alerts (hour : Z) (payload : string) : bool :=
  String.eqb payload "1"
  || (((24 <=? hour) || (hour <? 6)) && negb (String.eqb payload "3")).

(** [on_message(client, userdata, msg)] *)
Definition on_message (topic payload : string) : M unit :=
  emit (Print ("Topic:  " +:+ topic +:+ newline +:+ "Message: " +:+ payload));;
  let hour := clock_hour w in
  (if alerts hour payload then
     let connector :=
       Mprofi.init (if decide (mprofi_key c = EmptyString) then environ_token w
                    else mprofi_key c) [] ∅ in
     r ← connector_call (Mprofi.add_message (mprofi_recipient c) (mprofi_message c)) connector;
     connector_call (Mprofi.send (sms_answer w) (has_JSONDecodeError w) (mprofi_ref c)) r.2;;
     mret ()
   else mret ());;
  emit Disconnect.

(** What the script does when the pin reads 1.  The client library runs
    the two callbacks from inside [loop_forever]; here the call is one
    event, with the outcome the world gives it. *)
Definition detected : M unit :=
  call (UrlOpen (thingspeak_baseURL c +:+ "&" +:+ thingspeak_field c +:+ "=" +:+ "1"))
    (urlopen w);;
  call (Connect (mqtt_server c) (mqtt_port c) 60) (connect w);;
  call LoopForever (loop_forever w);;
  emit (Print "motion detected");;
  raise (SystemExit 0).

(** [for num in range(1,120)], at the [i]-th poll of the pin. *)
Fixpoint polling (nums : list nat) (i : nat) : M unit :=
  match nums with
  | [] => mret ()
  | num :: rest =>
      emit (GpioInput (gpio_pin c));;
      (if gpio w i =? 1 then detected else mret ());;
      emit (Sleep 1);;
      polling rest (S i)
  end.

(** The script, from its first statement. *)
Definition script : M unit :=
  emit Setmode;;
  emit (Setup (gpio_pin c));;
  emit (UsernamePwSet (mqtt_uname c) (mqtt_pw c));;
  polling (seq 1 119) 0.

End Script.

(** *** Reading a trace *)

Definition polls (t : list event) : list Z :=
  omap (λ ev, match ev with GpioInput pin => Some pin | _ => None end) t.

Definition sleeps (t : list event) : list Z :=
  omap (λ ev, match ev with Sleep n => Some n | _ => None end) t.

Definition requests (t : list event) : list string :=
  omap (λ ev, match ev with UrlOpen url => Some url | _ => None end) t.

Definition sms (t : list event) : list Mprofi.event :=
  omap (λ ev, match ev with Sms e => Some e | _ => None end) t.

Definition disconnects (t : list event) : list unit :=
  omap (λ ev, match ev with Disconnect => Some () | _ => None end) t.

(** *** Sample data: a configuration, and a world whose pin goes high at
    the poll of the given number (never, for 119 and above), whose request
    fails as given, at the given hour *)

Definition sample_conf : conf :=
  Conf 4 "https://api.thingspeak.com/update?key=KEY" "field1" "broker.local" 1883
    "user" "secret" "/motion" "token" "48111222333" "Motion detected!"
    (Some (Mprofi.PStr "motion")).

(** The same configuration with no recipient set. *)
Definition no_recipient_conf : conf :=
  Conf 4 "https://api.thingspeak.com/update?key=KEY" "field1" "broker.local" 1883
    "user" "secret" "/motion" "token" EmptyString "Motion detected!"
    (Some (Mprofi.PStr "motion")).

Definition sample_world (motion_at : nat) (failure : option exn) (hour : Z) : world :=
  World (λ i, if (i =? motion_at)%nat then 1 else 0) failure None None hour EmptyString
    (Mprofi.PostResponse 200 (Some (Mprofi.PDict [("id", Mprofi.PInt 7)]))) true.

End Motion.

(* ===================================================================== *)
(** * Facts about the float builtins                                      *)
(* ===================================================================== *)

Module PyFloatFacts.
Import PyFloat.

Lemma magnitude_pos m e : 0 < (magnitude m e).1 ∧ 0 < (magnitude m e).2.
Proof.
  destruct e as [|p|p]; simpl; split; try lia;
    try (apply Z.pow_pos_nonneg; lia).
Qed.
Lemma nearest_double_sign s n d :
  nearest_double s n d = with_sign s (nearest_double false n d).
Proof.
  unfold nearest_double, SFdiv.
  destruct (SFdiv_core_binary prec emax (Z.pos n) 0 (Z.pos d) 0) as [[mz ez] lz].
  unfold binary_round_aux.
  destruct (shr_fexp prec emax mz ez lz) as [mrs e1].
  destruct (shr_fexp prec emax _ e1 loc_Exact) as [mrs2 e2].
  destruct (shr_m mrs2); simpl; try reflexivity.
  all: destruct s; simpl; try reflexivity.
  all: match goal with |- context [if ?b then _ else _] => destruct b end; reflexivity.
Qed.

Lemma float_str_sign s m e :
  float_str (S754_finite s m e) =
  (if s then "-" else "") +:+ float_str (S754_finite false m e).
Proof.
  unfold float_str. destruct (magnitude m e) as [num den]. reflexivity.
Qed.

Lemma tenths_text_sign s k :
  tenths_text s k = (if s then "-" else "") +:+ tenths_text false k.
Proof. reflexivity. Qed.

Lemma check_range_spec n lo k :
  check_range n lo = true → lo <= k < lo + Z.of_nat n → tenths_ok k = true.
Proof.
  revert lo. induction n as [|n IH]; intros lo Hc Hk; [lia|].
  cbn [check_range] in Hc. apply andb_prop in Hc as [H0 Hc].
  destruct (decide (k = lo)) as [->|Hne]; [exact H0|].
  apply (IH (lo + 1)); [exact Hc|lia].
Qed.

(** Every count of tenths a sensor can send prints with one decimal. *)
Lemma tenths_table : check_range (Z.to_nat max_tenths) 1 = true.
Proof. vm_compute. reflexivity. Qed.

Lemma tenths_ok_range p : Z.pos p <= max_tenths → tenths_ok (Z.pos p) = true.
Proof.
  intros Hp. apply (check_range_spec (Z.to_nat max_tenths) 1); [exact tenths_table|].
  rewrite Z2Nat.id by lia. lia.
Qed.

Lemma one_decimal_sign (s : bool) (t : string) :
  digits_point_digit false t = true →
  one_decimal ((if s then "-" else "") +:+ t) = true.
Proof.
  intros Ht. destruct s; simpl; [exact Ht|].
  destruct t as [|a t']; [discriminate|].
  unfold one_decimal.
  destruct (Ascii.ascii_dec a "-"%char) as [->|Hne]; [|].
  - simpl in Ht. discriminate.
  - destruct a as [[] [] [] [] [] [] [] []]; try exact Ht; congruence.
Qed.

Lemma round_half_away_range num den :
  0 < den → 0 <= num → 10 * num <= max_tenths * den →
  0 <= round_half_away (num * 10) den <= max_tenths.
Proof.
  intros Hd Hn Hle. unfold round_half_away. split.
  - apply Z.div_pos; lia.
  - apply Z.lt_succ_r, Z.div_lt_upper_bound; nia.
Qed.



(** The count of tenths nearest to a float's magnitude (halves up). *)
Lemma builtin_round_tenths s m e :
  builtin_round (S754_finite s m e) 1 =
  match round_half_away ((magnitude m e).1 * 10) (magnitude m e).2 with
  | Zpos k => nearest_double s k 10
  | _ => S754_zero s
  end.
Proof.
  unfold builtin_round. simpl Nat.ltb.
  destruct (magnitude m e) as [num den]. reflexivity.
Qed.

Lemma float_str_round_finite s m e :
  sensor_range (S754_finite s m e) = true →
  float_str (builtin_round (S754_finite s m e) 1) =
    tenths_text s (round_half_away ((magnitude m e).1 * 10) (magnitude m e).2)
  ∧ one_decimal (float_str (builtin_round (S754_finite s m e) 1)) = true.
Proof.
  intros Hr. rewrite builtin_round_tenths.
  unfold sensor_range in Hr.
  pose proof (magnitude_pos m e) as [Hn Hd].
  destruct (magnitude m e) as [num den]. simpl in *.
  apply Z.leb_le in Hr.
  pose proof (round_half_away_range num den Hd ltac:(lia) Hr) as [Hk0 Hk].
  destruct (round_half_away (num * 10) den) as [|k|k]; [|
    |lia].
  - destruct s; split; reflexivity.
  - pose proof (tenths_ok_range k Hk) as Hok.
    unfold tenths_ok in Hok.
    rewrite nearest_double_sign.
    destruct (nearest_double false k 10) as [| | |s' m' e']; try discriminate.
    apply andb_prop in Hok as [Heq Hdig].
    apply String.eqb_eq in Heq.
    simpl with_sign. rewrite float_str_sign, Heq, <- tenths_text_sign.
    split; [reflexivity|].
    rewrite tenths_text_sign. by apply one_decimal_sign.
Qed.

Lemma float_str_round_tenths x :
  sensor_range x = true →
  float_str (builtin_round x 1) = tenths_text (sign_of x) (tenths x)
  ∧ one_decimal (float_str (builtin_round x 1)) = true.
Proof.
  destruct x as [s|s| |s m e]; try discriminate.
  - intros _. destruct s; split; reflexivity.
  - intros Hr. pose proof (float_str_round_finite s m e Hr) as [H1 H2].
    split; [|exact H2]. rewrite H1. unfold tenths, sign_of.
    destruct (magnitude m e); reflexivity.
Qed.

End PyFloatFacts.

(* ===================================================================== *)
(** * Facts about the sensor delivery loop                                *)
(* ===================================================================== *)

Module DhtFacts.
Import PyFloat Dht PyFloatFacts.

Arguments float_str : simpl never.
Arguments builtin_round : simpl never.

Lemma getSensorData_eq w pin :
  getSensorData w pin =
  ([ReadRetry pin],
   match read_retry w pin with
   | Returns (PyFloat RH) (PyFloat T) =>
       inr (float_str (builtin_round RH 1), float_str (builtin_round T 1))
   | Returns _ _ => inl TypeError
   | ReadRaises e => inl e
   end).
Proof.
  unfold getSensorData, call_read_retry.
  destruct (read_retry w pin) as [[|x] [|y]|e]; reflexivity.
Qed.

Lemma getSensorData_reading w pin :
  trace (getSensorData w pin) = [ReadRetry pin] ∧
  match reading w pin with
  | Some r => outcome (getSensorData w pin) = inr r
  | None => ∃ e, outcome (getSensorData w pin) = inl e
  end.
Proof.
  rewrite getSensorData_eq. unfold reading. split; [reflexivity|].
  destruct (read_retry w pin) as [[|x] [|y]|e]; simpl; eauto.
Qed.

Lemma append_empty_r (s : string) : s +:+ "" = s.
Proof.
  induction s as [|a s IH]; [reflexivity|].
  change (String a (s +:+ "") = String a s). by rewrite IH.
Qed.

Lemma percent_fields a b c d e f g h :
  percent fields_template [a; b; c; d; e; f; g; h] = mret (query a b c d e f g h).
Proof.
  unfold percent, fields_template, query. simpl interpolate.
  rewrite append_empty_r. reflexivity.
Qed.

Section WithConf.
Variable c : conf.
Variable format_exc : exn → string.

Lemma deliver_eq w RH T RH2 T2 RH3 T3 RH4 T4 :
  deliver c w RH T RH2 T2 RH3 T3 RH4 T4 =
  match urlopen w, close w, publish_multiple w with
  | Some e, _, _ =>
      ([UrlOpen (thingspeak_baseURL c +:+ query T RH T2 RH2 T3 RH3 T4 RH4)], inl e)
  | None, Some e, _ =>
      ([UrlOpen (thingspeak_baseURL c +:+ query T RH T2 RH2 T3 RH3 T4 RH4); Close], inl e)
  | None, None, r =>
      ([UrlOpen (thingspeak_baseURL c +:+ query T RH T2 RH2 T3 RH3 T4 RH4); Close;
        PublishMultiple (msgs T T2 RH2 T3 RH3 T4) (mqtt_server c) (mqtt_port c)
          EmptyString 60 (mqtt_uname c, mqtt_pw c)],
       match r with Some e => inl e | None => inr () end)
  end.
Proof.
  unfold deliver. rewrite percent_fields.
  destruct (urlopen w), (close w), (publish_multiple w); reflexivity.
Qed.

(** What the inner [except] clauses do with an exception. *)
Lemma handlers_logs e :
  checksLogger c = true → httplib c = true → is_Exception e = true →
  ∃ text, handlers c format_exc e = ([LogError text], inr ()).
Proof.
  intros Hl Hh He. unfold handlers, checksLogger_error. rewrite Hl, Hh.
  destruct e; simpl in *; try discriminate; eauto.
Qed.


Lemma handlers_trace e :
  broker_calls (trace (handlers c format_exc e)) = [] ∧
  http_requests (trace (handlers c format_exc e)) = [] ∧
  pins_read (trace (handlers c format_exc e)) = [] ∧
  sleeps (trace (handlers c format_exc e)) = [].
Proof.
  unfold handlers, checksLogger_error.
  destruct e, (checksLogger c), (httplib c); simpl; auto.
Qed.

Lemma cycle_failed w :
  batch w = None →
  ∃ e, cycle c format_exc w = (ReadRetry <$> acquired_prefix w channels, inl e).
Proof.
  unfold cycle, batch, channels, acquired_prefix, reading.
  rewrite !getSensorData_eq.
  destruct (read_retry w 2) as [[|x1] [|y1]|e1]; try (intros _; eexists; reflexivity).
  destruct (read_retry w 3) as [[|x2] [|y2]|e2]; try (intros _; eexists; reflexivity).
  destruct (read_retry w 4) as [[|x3] [|y3]|e3]; try (intros _; eexists; reflexivity).
  destruct (read_retry w 17) as [[|x4] [|y4]|e4]; try (intros _; eexists; reflexivity).
  discriminate.
Qed.

Lemma cycle_acquired w RH T RH2 T2 RH3 T3 RH4 T4 :
  batch w = Some ((RH, T), (RH2, T2), (RH3, T3), (RH4, T4)) →
  cycle c format_exc w =
  let d := try_except (deliver c w RH T RH2 T2 RH3 T3 RH4 T4) (handlers c format_exc) in
  ((ReadRetry <$> channels) ++ trace d ++
     match outcome d with inr _ => [Sleep 600] | inl _ => [] end,
   outcome d).
Proof.
  unfold cycle, batch, channels, reading.
  rewrite !getSensorData_eq.
  destruct (read_retry w 2) as [[|x1] [|y1]|e1]; try discriminate.
  destruct (read_retry w 3) as [[|x2] [|y2]|e2]; try discriminate.
  destruct (read_retry w 4) as [[|x3] [|y3]|e3]; try discriminate.
  destruct (read_retry w 17) as [[|x4] [|y4]|e4]; try discriminate.
  intros [= <- <- <- <- <- <- <- <-].
  cbv zeta. unfold mbind, M_bind. cbn [fst snd].
  destruct (try_except _ _) as [t [e|[]]]; unfold trace, outcome; cbn [fst snd];
    rewrite ?app_nil_r; reflexivity.
Qed.

Lemma iteration_eq w :
  iteration c format_exc w =
  (trace (cycle c format_exc w) ++
     match outcome (cycle c format_exc w) with
     | inl e => [Print ("error:  " +:+ type_repr e)]
     | inr _ => []
     end,
   inr ()).
Proof.
  unfold iteration, try_except, trace, outcome.
  destruct (cycle c format_exc w) as [t [e|[]]]; cbn [fst snd];
    rewrite ?app_nil_r; reflexivity.
Qed.

Lemma batch_prefix w r :
  batch w = Some r → acquired_prefix w channels = channels.
Proof.
  unfold batch, channels, acquired_prefix.
  destruct (reading w 2), (reading w 3), (reading w 4), (reading w 17);
    simpl; intros; try discriminate; reflexivity.
Qed.

Lemma pins_read_reads (l : list Z) : pins_read (ReadRetry <$> l) = l.
Proof.
  unfold pins_read. induction l as [|x l IH]; [reflexivity|].
  cbn. f_equal. exact IH.
Qed.

Lemma others_reads (l : list Z) :
  http_requests (ReadRetry <$> l) = [] ∧ broker_calls (ReadRetry <$> l) = [] ∧
  logged (ReadRetry <$> l) = [] ∧ sleeps (ReadRetry <$> l) = [].
Proof. induction l as [|x l IH]; simpl; [done|]. exact IH. Qed.

(** The trace of the inner [try] statement, by the outcome of each call. *)
Lemma inner_try_trace w RH T RH2 T2 RH3 T3 RH4 T4 :
  let t := trace (try_except (deliver c w RH T RH2 T2 RH3 T3 RH4 T4) (handlers c format_exc)) in
  pins_read t = [] ∧
  http_requests t = [thingspeak_baseURL c +:+ query T RH T2 RH2 T3 RH3 T4 RH4] ∧
  broker_calls t =
    match urlopen w, close w with
    | None, None =>
        [PublishMultiple (msgs T T2 RH2 T3 RH3 T4) (mqtt_server c) (mqtt_port c)
           EmptyString 60 (mqtt_uname c, mqtt_pw c)]
    | _, _ => []
    end ∧
  sleeps t = [].
Proof.
  cbv zeta. rewrite deliver_eq. unfold try_except, trace.
  destruct (urlopen w) as [e1|], (close w) as [e2|], (publish_multiple w) as [e3|];
    cbn [fst snd];
    try (destruct (handlers_trace e1) as (Hb & Hh & Hp & Hs));
    try (destruct (handlers_trace e2) as (Hb & Hh & Hp & Hs));
    try (destruct (handlers_trace e3) as (Hb & Hh & Hp & Hs));
    unfold pins_read, http_requests, broker_calls, sleeps, trace in *;
    rewrite ?omap_app, ?Hb, ?Hh, ?Hp, ?Hs; simpl; auto.
Qed.

Lemma pins_read_iteration w :
  pins_read (trace (iteration c format_exc w)) = acquired_prefix w channels.
Proof.
  rewrite iteration_eq. unfold trace at 1. cbn [fst].
  destruct (batch w) as [[[[[RH T] [RH2 T2]] [RH3 T3]] [RH4 T4]]|] eqn:Hb.
  - pose proof (inner_try_trace w RH T RH2 T2 RH3 T3 RH4 T4) as Hin.
    rewrite (cycle_acquired _ _ _ _ _ _ _ _ _ Hb), ?(batch_prefix _ _ Hb).
    cbv zeta in *.
    destruct (try_except _ _) as [t [e|[]]];
      unfold trace, outcome in *; cbn [fst snd] in *;
      destruct Hin as (Hp & Hh & Hc & Hs);
      destruct (others_reads channels) as (Rh & Rc & _ & _);
      pose proof (pins_read_reads channels) as Rp;
      unfold pins_read, http_requests, broker_calls in *;
      rewrite !omap_app, ?Hp, ?Hh, ?Hc, ?Rh, ?Rc, ?Rp; cbn [omap app];
      rewrite ?app_nil_r; reflexivity.
  - destruct (cycle_failed w Hb) as [e ->]. unfold trace, outcome. cbn [fst snd].
    destruct (others_reads (acquired_prefix w channels)) as (Rh & Rc & _ & _).
    pose proof (pins_read_reads (acquired_prefix w channels)) as Rp.
    unfold pins_read, http_requests, broker_calls in *.
    rewrite !omap_app, ?Rh, ?Rc, ?Rp; cbn [omap app]; rewrite ?app_nil_r; reflexivity.
Qed.

Lemma http_requests_iteration w :
  http_requests (trace (iteration c format_exc w)) =
  match batch w with
  | Some ((RH, T), (RH2, T2), (RH3, T3), (RH4, T4)) =>
      [thingspeak_baseURL c +:+ query T RH T2 RH2 T3 RH3 T4 RH4]
  | None => []
  end.
Proof.
  rewrite iteration_eq. unfold trace at 1. cbn [fst].
  destruct (batch w) as [[[[[RH T] [RH2 T2]] [RH3 T3]] [RH4 T4]]|] eqn:Hb.
  - pose proof (inner_try_trace w RH T RH2 T2 RH3 T3 RH4 T4) as Hin.
    rewrite (cycle_acquired _ _ _ _ _ _ _ _ _ Hb), ?(batch_prefix _ _ Hb).
    cbv zeta in *.
    destruct (try_except _ _) as [t [e|[]]];
      unfold trace, outcome in *; cbn [fst snd] in *;
      destruct Hin as (Hp & Hh & Hc & Hs);
      destruct (others_reads channels) as (Rh & Rc & _ & _);
      pose proof (pins_read_reads channels) as Rp;
      unfold pins_read, http_requests, broker_calls in *;
      rewrite !omap_app, ?Hp, ?Hh, ?Hc, ?Rh, ?Rc, ?Rp; cbn [omap app];
      rewrite ?app_nil_r; reflexivity.
  - destruct (cycle_failed w Hb) as [e ->]. unfold trace, outcome. cbn [fst snd].
    destruct (others_reads (acquired_prefix w channels)) as (Rh & Rc & _ & _).
    pose proof (pins_read_reads (acquired_prefix w channels)) as Rp.
    unfold pins_read, http_requests, broker_calls in *.
    rewrite !omap_app, ?Rh, ?Rc, ?Rp; cbn [omap app]; rewrite ?app_nil_r; reflexivity.
Qed.

Lemma broker_calls_iteration w :
  broker_calls (trace (iteration c format_exc w)) =
  match batch w, urlopen w, close w with
  | Some ((RH, T), (RH2, T2), (RH3, T3), (RH4, T4)), None, None =>
      [PublishMultiple (msgs T T2 RH2 T3 RH3 T4) (mqtt_server c) (mqtt_port c)
         EmptyString 60 (mqtt_uname c, mqtt_pw c)]
  | _, _, _ => []
  end.
Proof.
  rewrite iteration_eq. unfold trace at 1. cbn [fst].
  destruct (batch w) as [[[[[RH T] [RH2 T2]] [RH3 T3]] [RH4 T4]]|] eqn:Hb.
  - pose proof (inner_try_trace w RH T RH2 T2 RH3 T3 RH4 T4) as Hin.
    rewrite (cycle_acquired _ _ _ _ _ _ _ _ _ Hb), ?(batch_prefix _ _ Hb).
    cbv zeta in *.
    destruct (try_except _ _) as [t [e|[]]];
      unfold trace, outcome in *; cbn [fst snd] in *;
      destruct Hin as (Hp & Hh & Hc & Hs);
      destruct (others_reads channels) as (Rh & Rc & _ & _);
      pose proof (pins_read_reads channels) as Rp;
      unfold pins_read, http_requests, broker_calls in *;
      rewrite !omap_app, ?Hp, ?Hh, ?Hc, ?Rh, ?Rc, ?Rp; cbn [omap app];
      rewrite ?app_nil_r; reflexivity.
  - destruct (cycle_failed w Hb) as [e ->]. unfold trace, outcome. cbn [fst snd].
    destruct (others_reads (acquired_prefix w channels)) as (Rh & Rc & _ & _).
    pose proof (pins_read_reads (acquired_prefix w channels)) as Rp.
    unfold pins_read, http_requests, broker_calls in *.
    rewrite !omap_app, ?Rh, ?Rc, ?Rp; cbn [omap app]; rewrite ?app_nil_r; reflexivity.
Qed.
End WithConf.

(* ------------------------------------------------------------------ *)
Section Claims.
Variable c : conf.
Variable format_exc : exn → string.

Lemma inner_try_handled w e RH T RH2 T2 RH3 T3 RH4 T4 :
  checksLogger c = true → httplib c = true → is_Exception e = true →
  outcome (deliver c w RH T RH2 T2 RH3 T3 RH4 T4) = inl e →
  ∃ text,
    try_except (deliver c w RH T RH2 T2 RH3 T3 RH4 T4) (handlers c format_exc) =
    (trace (deliver c w RH T RH2 T2 RH3 T3 RH4 T4) ++ [LogError text], inr ()).
Proof.
  intros Hl Hh He Hd.
  destruct (handlers_logs c format_exc e Hl Hh He) as [text Ht].
  exists text. unfold try_except, outcome, trace in *. by rewrite Hd, Ht.
Qed.

Lemma cycle_handled w e :
  checksLogger c = true → httplib c = true → is_Exception e = true →
  is_Some (batch w) →
  (urlopen w = Some e ∨
   urlopen w = None ∧ close w = None ∧ publish_multiple w = Some e) →
  outcome (cycle c format_exc w) = inr () ∧
  ∃ pre text, trace (cycle c format_exc w) = pre ++ [LogError text; Sleep 600].
Proof.
  intros Hl Hh He [[[[[RH T] [RH2 T2]] [RH3 T3]] [RH4 T4]] Hb] Hw.
  rewrite (cycle_acquired _ _ _ _ _ _ _ _ _ _ _ Hb). cbv zeta.
  destruct (inner_try_handled w e RH T RH2 T2 RH3 T3 RH4 T4 Hl Hh He) as [text ->].
  - rewrite deliver_eq. destruct Hw as [->|(-> & -> & ->)]; [|reflexivity].
    destruct (close w), (publish_multiple w); reflexivity.
  - unfold trace, outcome. cbn [fst snd]. split; [reflexivity|].
    exists ((ReadRetry <$> channels) ++ (deliver c w RH T RH2 T2 RH3 T3 RH4 T4).1), text.
    by rewrite <- !app_assoc.
Qed.
End Claims.

Lemma batch_ext w1 w2 :
  (∀ pin, read_retry w1 pin = read_retry w2 pin) → batch w1 = batch w2.
Proof. intros H. unfold batch, reading. by rewrite !H. Qed.

Lemma loop_eq c fe ws :
  loop c fe ws = (concat ((λ w, trace (iteration c fe w)) <$> ws), inr ()).
Proof.
  induction ws as [|w ws IH]; [reflexivity|].
  cbn [loop]. rewrite IH. pose proof (iteration_eq c fe w) as Hi.
  unfold mbind, M_bind, trace. cbn [fmap list_fmap concat].
  destruct (iteration c fe w) as [t r]. injection Hi as _ ->. reflexivity.
Qed.

Lemma cycle_raises_no_sleep c fe w e :
  outcome (cycle c fe w) = inl e → sleeps (trace (cycle c fe w)) = [].
Proof.
  destruct (batch w) as [[[[[RH T] [RH2 T2]] [RH3 T3]] [RH4 T4]]|] eqn:Hb.
  - pose proof (inner_try_trace c fe w RH T RH2 T2 RH3 T3 RH4 T4) as Hin.
    rewrite (cycle_acquired _ _ _ _ _ _ _ _ _ _ _ Hb). cbv zeta in *.
    destruct (try_except _ _) as [t [e'|[]]]; unfold trace, outcome in *;
      cbn [fst snd] in *; [|discriminate].
    intros _. destruct Hin as (_ & _ & _ & Hs).
    destruct (others_reads channels) as (_ & _ & _ & Rs).
    unfold sleeps in *. rewrite !omap_app, Hs, Rs. reflexivity.
  - destruct (cycle_failed c fe w Hb) as [e' ->]. intros _.
    unfold trace. cbn [fst].
    by destruct (others_reads (acquired_prefix w channels)) as (_ & _ & _ & Rs).
Qed.

(** C2 (amended): [getSensorData] returns a reading - humidity and
    temperature rounded to one decimal and printed - exactly when the
    hardware read hands back two floats; when a quantity comes back as
    [None] (every retry failed) it raises [TypeError], and an exception of
    the read itself passes through.  There is no failure marker. *)
Theorem getSensorData_outcome w pin :
  outcome (getSensorData w pin) =
  match read_retry w pin with
  | Returns (PyFloat RH) (PyFloat T) =>
      inr (float_str (builtin_round RH 1), float_str (builtin_round T 1))
  | Returns _ _ => inl TypeError
  | ReadRaises e => inl e
  end.
Proof. by rewrite getSensorData_eq. Qed.

(** C2, refuted as stated: on the channel whose read fails after all
    retries, [getSensorData] raises [TypeError] and returns nothing. *)
Lemma getSensorData_failed_read_raises :
  let w := World failing_read None None None in
  read_retry w 4 = Returns PyNone PyNone ∧
  outcome (getSensorData w 4) = inl TypeError ∧
  ¬ ∃ r, outcome (getSensorData w 4) = inr r.
Proof. cbv zeta. repeat split. intros [r Hr]. discriminate Hr. Qed.

(** C6: for every pair of floats in the sensor's range, [getSensorData]
    returns, for each quantity, the numeral of its count of tenths (the
    value rounded to one decimal place): digits, a point, one digit. *)
Theorem getSensorData_one_decimal w pin RH T :
  read_retry w pin = Returns (PyFloat RH) (PyFloat T) →
  sensor_range RH = true → sensor_range T = true →
  outcome (getSensorData w pin) =
    inr (tenths_text (sign_of RH) (tenths RH), tenths_text (sign_of T) (tenths T)) ∧
  one_decimal (tenths_text (sign_of RH) (tenths RH)) = true ∧
  one_decimal (tenths_text (sign_of T) (tenths T)) = true.
Proof.
  intros Hr H1 H2. rewrite getSensorData_outcome, Hr.
  destruct (float_str_round_tenths RH H1) as [E1 D1].
  destruct (float_str_round_tenths T H2) as [E2 D2].
  rewrite <- E1, <- E2. auto.
Qed.

Lemma getSensorData_one_decimal_witness :
  outcome (getSensorData (World sample_read None None None) 2) = inr ("61.3"%string, "22.5"%string) ∧
  one_decimal "61.3" = true ∧ one_decimal "22.5" = true.
Proof.
  exact (getSensorData_one_decimal (World sample_read None None None) 2
           (nearest_double false 613 10) (nearest_double false 225 10)
           eq_refl eq_refl eq_refl).
Defined.

(** C1 (amended): when the HTTP request to the logging endpoint fails,
    the broker publish is not invoked in that cycle, since both
    deliveries share one [try] body.  The failure itself does not abort
    the cycle: with [checksLogger] and [httplib] bound by the
    configuration module and all four channels acquired, any [Exception]
    is logged by an inner [except] clause and the cycle goes on to
    [sleep(600)]. *)
Theorem logging_failure_skips_broker c fe w e :
  urlopen w = Some e →
  broker_calls (trace (iteration c fe w)) = [] ∧
  (checksLogger c = true → httplib c = true → is_Exception e = true →
   is_Some (batch w) →
   outcome (cycle c fe w) = inr () ∧
   ∃ pre text, trace (cycle c fe w) = pre ++ [LogError text; Sleep 600]).
Proof.
  intros He. split.
  - rewrite broker_calls_iteration, He.
    by destruct (batch w) as [[[[[? ?] [? ?]] [? ?]] [? ?]]|].
  - intros Hl Hh Hx Hb. apply (cycle_handled c fe w e); auto.
Qed.

Lemma logging_failure_skips_broker_witness :
  let w := World sample_read (Some (URLError "Connection refused")) None None in
  broker_calls (trace (iteration sample_conf sample_format_exc w)) = [] ∧
  outcome (cycle sample_conf sample_format_exc w) = inr () ∧
  ∃ pre text, trace (cycle sample_conf sample_format_exc w) = pre ++ [LogError text; Sleep 600].
Proof.
  destruct (logging_failure_skips_broker sample_conf sample_format_exc
              (World sample_read (Some (URLError "Connection refused")) None None)
              (URLError "Connection refused") eq_refl) as [H1 H2].
  split; [exact H1|]. apply H2; try reflexivity.
  eexists. vm_compute. reflexivity.
Defined.

(** C1, refuted as stated: the logging endpoint refuses the connection,
    and the trace of the cycle holds no broker publish. *)
Lemma logging_failure_no_publish :
  let w := World sample_read (Some (URLError "Connection refused")) None None in
  trace (iteration sample_conf sample_format_exc w) =
    [ReadRetry 2; ReadRetry 3; ReadRetry 4; ReadRetry 17;
     UrlOpen "https://api.thingspeak.com/update?key=KEY&field1=22.5&field2=61.3&field3=19.0&field4=55.5&field5=21.4&field6=48.0&field7=17.8&field8=70.2";
     LogError "URLError = Connection refused"; Sleep 600] ∧
  broker_calls (trace (iteration sample_conf sample_format_exc w)) = [].
Proof. vm_compute. split; reflexivity. Qed.

(** C3 (amended): the pins are read in the order 2, 3, 4, 17 up to the
    first failed acquisition.  When all four succeed, the request
    carries one temperature and one humidity field per channel in that
    fixed order.  When one fails, the later channels are not read and
    nothing is delivered: no request, no publish, no sentinel. *)
Theorem batch_in_channel_order c fe w :
  pins_read (trace (iteration c fe w)) = acquired_prefix w channels ∧
  match batch w with
  | Some ((RH, T), (RH2, T2), (RH3, T3), (RH4, T4)) =>
      acquired_prefix w channels = channels ∧
      http_requests (trace (iteration c fe w)) =
        [thingspeak_baseURL c +:+ query T RH T2 RH2 T3 RH3 T4 RH4]
  | None =>
      http_requests (trace (iteration c fe w)) = [] ∧
      broker_calls (trace (iteration c fe w)) = []
  end.
Proof.
  split; [apply pins_read_iteration|].
  rewrite http_requests_iteration, broker_calls_iteration.
  destruct (batch w) as [[[[[RH T] [RH2 T2]] [RH3 T3]] [RH4 T4]]|] eqn:Hb; [|done].
  split; [|reflexivity]. by eapply batch_prefix.
Qed.

(** C3, refuted as stated: with the third channel failing, pin 17 is
    never read and the cycle delivers nothing. *)
Lemma failed_channel_abandons_cycle :
  let w := World failing_read None None None in
  trace (iteration sample_conf sample_format_exc w) =
    [ReadRetry 2; ReadRetry 3; ReadRetry 4; Print "error:  <type 'exceptions.TypeError'>"] ∧
  pins_read (trace (iteration sample_conf sample_format_exc w)) ≠ channels.
Proof. vm_compute. split; [reflexivity|discriminate]. Qed.




(** C5 (amended): no iteration lets an exception out: whatever the cycle
    raises is caught by the bare [except] and printed.  The loop then
    goes straight on to the next iteration, without any pause (the only
    [sleep] is inside the [try], and a raising cycle never reaches it).
    The loop has no exit: it runs an iteration for every world it is
    given. *)
Theorem iteration_never_raises c fe w :
  outcome (iteration c fe w) = inr () ∧
  (∀ e, outcome (cycle c fe w) = inl e →
     trace (iteration c fe w) = trace (cycle c fe w) ++ [Print ("error:  " +:+ type_repr e)] ∧
     sleeps (trace (iteration c fe w)) = []) ∧
  ∀ ws, outcome (main c fe (w :: ws)) = inr () ∧
        trace (main c fe (w :: ws)) =
          Print "starting..." :: trace (iteration c fe w) ++
            concat ((λ w', trace (iteration c fe w')) <$> ws).
Proof.
  split; [by rewrite iteration_eq|]. split.
  - intros e He. pose proof (cycle_raises_no_sleep c fe w e He) as Hs.
    pose proof (iteration_eq c fe w) as Hi. rewrite He in Hi.
    destruct (iteration c fe w) as [t r]. injection Hi as -> ->.
    unfold sleeps, trace in *. cbn [fst]. split; [reflexivity|].
    rewrite omap_app, Hs. reflexivity.
  - intros ws. unfold main. rewrite loop_eq. split; reflexivity.
Qed.

Lemma iteration_never_raises_witness :
  let w := World failing_read None None None in
  outcome (iteration sample_conf sample_format_exc w) = inr () ∧
  trace (iteration sample_conf sample_format_exc w) =
    trace (cycle sample_conf sample_format_exc w) ++
      [Print ("error:  " +:+ type_repr TypeError)] ∧
  sleeps (trace (iteration sample_conf sample_format_exc w)) = [].
Proof.
  destruct (iteration_never_raises sample_conf sample_format_exc
              (World failing_read None None None)) as (H1 & H2 & _).
  split; [exact H1|]. apply H2. vm_compute. reflexivity.
Defined.

(** C5, refuted as stated: two bad cycles in a row; the second one's
    first read follows the error message of the first with no pause. *)
Lemma bad_cycle_retried_without_pause :
  let w := World failing_read None None None in
  trace (main sample_conf sample_format_exc [w; w]) =
    [Print "starting...";
     ReadRetry 2; ReadRetry 3; ReadRetry 4; Print "error:  <type 'exceptions.TypeError'>";
     ReadRetry 2; ReadRetry 3; ReadRetry 4; Print "error:  <type 'exceptions.TypeError'>"] ∧
  sleeps (trace (main sample_conf sample_format_exc [w; w])) = [].
Proof. vm_compute. split; reflexivity. Qed.

(** C7: an iteration calls the broker at most once - exactly when all
    four channels were acquired and the HTTP request and its [close]
    succeeded - with the six messages of the cycle in one
    [publish.multiple] call authenticated by the configured user name and
    password; every message has QoS 0 and the retain flag set. *)
Theorem broker_messages_retained c fe w :
  broker_calls (trace (iteration c fe w)) =
    match batch w, urlopen w, close w with
    | Some ((RH, T), (RH2, T2), (RH3, T3), (RH4, T4)), None, None =>
        [PublishMultiple (msgs T T2 RH2 T3 RH3 T4) (mqtt_server c) (mqtt_port c)
           EmptyString 60 (mqtt_uname c, mqtt_pw c)]
    | _, _, _ => []
    end ∧
  ∀ T T2 RH2 T3 RH3 T4,
    length (msgs T T2 RH2 T3 RH3 T4) = 6%nat ∧
    Forall (λ m, qos m = 0 ∧ retain m = true) (msgs T T2 RH2 T3 RH3 T4).
Proof.
  split; [apply broker_calls_iteration|].
  intros. split; [reflexivity|]. unfold msgs. repeat constructor.
Qed.

(** C8 (amended): two iterations with the same hardware reads and the
    same configuration, but possibly different sink outcomes and traceback
    texts, issue the same HTTP request, and any publish of one equals any
    publish of the other.  Whether the publish happens at all depends on
    the HTTP request and its [close]: when these succeed or fail alike in
    both iterations, the broker calls of the two are equal. *)
Theorem payloads_depend_on_readings c fe1 fe2 w1 w2 :
  (∀ pin, read_retry w1 pin = read_retry w2 pin) →
  http_requests (trace (iteration c fe1 w1)) = http_requests (trace (iteration c fe2 w2)) ∧
  (∀ b1 b2, b1 ∈ broker_calls (trace (iteration c fe1 w1)) →
            b2 ∈ broker_calls (trace (iteration c fe2 w2)) → b1 = b2) ∧
  (delivered w1 = delivered w2 →
   broker_calls (trace (iteration c fe1 w1)) = broker_calls (trace (iteration c fe2 w2))).
Proof.
  intros Hr. pose proof (batch_ext w1 w2 Hr) as Hb.
  rewrite !http_requests_iteration, !broker_calls_iteration, Hb.
  split; [reflexivity|]. unfold delivered. split.
  - intros b1 b2.
    destruct (batch w2) as [[[[[RH T] [RH2 T2]] [RH3 T3]] [RH4 T4]]|];
      destruct (urlopen w1), (close w1), (urlopen w2), (close w2);
      rewrite ?list_elem_of_singleton, ?elem_of_nil; try tauto.
    by intros -> ->.
  - destruct (batch w2) as [[[[[RH T] [RH2 T2]] [RH3 T3]] [RH4 T4]]|];
      destruct (urlopen w1), (close w1), (urlopen w2), (close w2);
      try reflexivity; discriminate.
Qed.

Lemma payloads_depend_on_readings_witness :
  let w1 := World sample_read None None None in
  let w2 := World sample_read None None (Some (OtherException "<class 'socket.error'>")) in
  http_requests (trace (iteration sample_conf sample_format_exc w1)) =
    http_requests (trace (iteration sample_conf (λ _, EmptyString) w2)) ∧
  (∀ b1 b2, b1 ∈ broker_calls (trace (iteration sample_conf sample_format_exc w1)) →
            b2 ∈ broker_calls (trace (iteration sample_conf (λ _, EmptyString) w2)) → b1 = b2) ∧
  broker_calls (trace (iteration sample_conf sample_format_exc w1)) =
    broker_calls (trace (iteration sample_conf (λ _, EmptyString) w2)).
Proof.
  destruct (payloads_depend_on_readings sample_conf sample_format_exc (λ _, EmptyString)
              (World sample_read None None None)
              (World sample_read None None (Some (OtherException "<class 'socket.error'>")))
              (λ _, eq_refl)) as (H1 & H2 & H3).
  split; [exact H1|]. split; [exact H2|]. apply H3. reflexivity.
Defined.

(** C8, refuted as stated: the same reads in both iterations, the HTTP
    request refused in the second: the first publishes the six messages,
    the second none. *)
Lemma same_readings_different_broker_payload :
  let w1 := World sample_read None None None in
  let w2 := World sample_read (Some (URLError "Connection refused")) None None in
  (∀ pin, read_retry w1 pin = read_retry w2 pin) ∧
  length (broker_calls (trace (iteration sample_conf sample_format_exc w1))) = 1%nat ∧
  broker_calls (trace (iteration sample_conf sample_format_exc w2)) = [] ∧
  broker_calls (trace (iteration sample_conf sample_format_exc w1)) ≠
    broker_calls (trace (iteration sample_conf sample_format_exc w2)).
Proof.
  cbv zeta. split; [reflexivity|]. split; [by vm_compute|]. split; [by vm_compute|].
  rewrite !broker_calls_iteration. vm_compute. discriminate.
Qed.

End DhtFacts.

(* ===================================================================== *)
(** * Facts about the SMS connector                                       *)
(* ===================================================================== *)

Module MprofiFacts.
Import Mprofi.

Lemma for_each_absorb (pairs : list (loc * pyval)) st :
  for_each pairs (λ '(sent_message, response_message),
    update_at sent_message response_message) st =
  ([], State (token st) (payload st) (response st) (absorb (store st) pairs).1,
   match (absorb (store st) pairs).2 with Some e => inl e | None => inr () end).
Proof.
  revert st. induction pairs as [|[m rm] rest IH]; intros st.
  - by destruct st.
  - cbn [for_each absorb]. unfold mbind, M_bind, update_at at 1.
    destruct (dict_update (deref (store st) m) rm) as [d [e|]]; [reflexivity|].
    rewrite IH. reflexivity.
Qed.

Section SendFacts.
Variable answer : post_result.
Variable has_JSONDecodeError : bool.
Variable reference : option pyval.

Lemma send_empty st :
  payload st = [] →
  send answer has_JSONDecodeError reference st =
  ([], st, inl (ValueError "Empty payload. Please use `add_message` first.")).
Proof.
  intros Hp. unfold send, mbind, M_bind, get. rewrite Hp. reflexivity.
Qed.

Lemma send_nonempty st :
  payload st ≠ [] →
  send answer has_JSONDecodeError reference st =
  let st1 := with_reference reference st in
  let t := [Post (request_url st) (request_form reference st)] in
  match exchange answer has_JSONDecodeError with
  | inl e => (t, st1, inl e)
  | inr v =>
      match extracted st v with
      | inl e => (t, State (token st) [] (payload st) (store st1), inl e)
      | inr received =>
          (t, State (token st) [] (payload st)
                (absorb (store st1) (zip (payload st) received)).1,
           match (absorb (store st1) (zip (payload st) received)).2 with
           | Some e => inl e
           | None => inr v
           end)
      end
  end.
Proof.
  intros Hne. destruct st as [tok p resp h]. cbn [payload] in Hne.
  destruct p as [|m [|m2 p]]; [done| |].
  - (* one message *)
    unfold send, mbind, M_bind, get, try_except, with_reference, request_url,
      request_form, exchange, extracted, session_post, raise_for_status,
      response_json, lift, set_response, set_payload, mret, M_ret, raise.
    cbn [payload response store token length Nat.eqb head default].
    destruct reference as [r|]; unfold update_at, dict_update;
      cbn [payload response store token foldl fst snd].
    all: destruct answer as [e|status body]; [destruct e; reflexivity|].
    all: cbn [fst snd]; destruct ((400 <=? status) && (status <? 600));
      [reflexivity|].
    all: destruct body as [v|]; [|destruct has_JSONDecodeError; reflexivity].
    all: cbn [fst snd]; destruct (getitem v "id") as [e|i]; [reflexivity|].
    all: cbn [iterate zip zip_with absorb for_each];
      unfold dict_update, mbind, M_bind, update_at, mret, M_ret;
      cbn [payload response store token foldl fst snd]; reflexivity.
  - (* several messages *)
    unfold send, mbind, M_bind, get, try_except, with_reference, request_url,
      request_form, exchange, extracted, session_post, raise_for_status,
      response_json, lift, set_response, set_payload, mret, M_ret, raise.
    cbn [payload response store token length Nat.eqb Nat.ltb Nat.leb].
    destruct answer as [e|status body]; [destruct e, reference; reflexivity|].
    cbn [fst snd]. destruct ((400 <=? status) && (status <? 600));
      [destruct reference; reflexivity|].
    destruct body as [v|]; [|destruct has_JSONDecodeError, reference; reflexivity].
    cbn [fst snd]. destruct (getitem v "result") as [e|r]; [destruct reference; reflexivity|].
    destruct (iterate r) as [e|received]; [destruct reference; reflexivity|].
    rewrite for_each_absorb. cbn [payload response store token fst snd].
    destruct reference; cbn [store];
      destruct (absorb h _) as [h' [e|]]; reflexivity.
Qed.
End SendFacts.

Lemma dict_update_error d other e :
  (dict_update d other).2 = Some e → announced e = false.
Proof.
  assert (Hitems : ∀ l d', (update_items d' l).2 = Some e → announced e = false).
  { induction l as [|x l IH]; intros d'; cbn [update_items]; [discriminate|].
    destruct (as_item x) as [err|[k v]] eqn:Hx; [|apply IH].
    cbn [snd]. intros [= <-]. unfold as_item in Hx.
    destruct (iterate x) as [?|[|a [|b [|? ?]]]]; try (by injection Hx as <-).
    destruct (as_key a) as [err'|k] eqn:Hk; [|discriminate].
    injection Hx as <-. by destruct a; try discriminate; injection Hk as <-. }
  destruct other; cbn [dict_update snd]; try discriminate; try apply Hitems;
    by intros [= <-].
Qed.

Lemma absorb_error h pairs e :
  (absorb h pairs).2 = Some e → announced e = false.
Proof.
  revert h. induction pairs as [|[m rm] rest IH]; intros h; cbn [absorb]; [discriminate|].
  destruct (dict_update (deref h m) rm) as [d [e'|]] eqn:Hd; [|apply IH].
  cbn [snd]. intros [= <-]. apply (dict_update_error (deref h m) rm). by rewrite Hd.
Qed.

Lemma extracted_error st v e : extracted st v = inl e → announced e = false.
Proof.
  unfold extracted, getitem, iterate.
  destruct (payload st) as [|? [|? ?]], v; try (by intros [= <-]);
    destruct (list_find _ _) as [[? [? r]]|]; try (by intros [= <-]);
    destruct r; by intros [= <-].
Qed.




(** C10 (amended): when [send] raises one of the exceptions its docstring
    announces ([ValueError] for the empty payload, [MprofiConnectionError],
    [MprofiAuthError]), the payload and response lists are as before the
    call, and so is every stored message, save that a lone message sent
    with a reference already carries its [reference] entry.  When [send]
    returns, payload is the empty list, response is the previous payload,
    and the messages have taken, in order, the items of the results read
    off the decoded body. *)
Theorem send_state answer has_JSONDecodeError reference st :
  let res := send answer has_JSONDecodeError reference st in
  (∀ e, res.2 = inl e → announced e = true →
     payload res.1.2 = payload st ∧ response res.1.2 = response st ∧
     store res.1.2 = store (with_reference reference st)) ∧
  (∀ v, res.2 = inr v →
     payload res.1.2 = [] ∧ response res.1.2 = payload st ∧
     ∃ received, extracted st v = inr received ∧
       absorb (store (with_reference reference st)) (zip (payload st) received)
       = (store res.1.2, None)).
Proof.
  cbv zeta. destruct (decide (payload st = [])) as [Hp|Hp].
  - rewrite send_empty by done. cbn [fst snd]. split; [|discriminate].
    intros e _ _. unfold with_reference. by rewrite Hp.
  - rewrite send_nonempty by done. cbv zeta.
    assert (Hl : payload (with_reference reference st) = payload st ∧
                 response (with_reference reference st) = response st).
    { unfold with_reference. destruct st as [tok [|? [|? ?]] resp h], reference; by split. }
    destruct Hl as [Hl1 Hl2].
    destruct (exchange _ _) as [e|v]; cbn [fst snd].
    { split; [|discriminate]. by intros e' [= <-] _. }
    destruct (extracted st v) as [e|received] eqn:Hx; cbn [fst snd payload response store].
    { split; [|discriminate]. intros e' [= <-] Ha.
      apply extracted_error in Hx. congruence. }
    destruct (absorb _ _) as [h' [e|]] eqn:Hab; cbn [fst snd].
    + split; [|discriminate]. intros e' [= <-] Ha.
      pose proof (absorb_error _ _ e ltac:(by rewrite Hab)). congruence.
    + split; [discriminate|]. intros v' [= <-]. eauto.
Qed.

Lemma send_state_witness :
  (let res := send (PostRaises ConnectionError) true (Some (PStr "2015-02-05")) one_message in
   payload res.1.2 = payload one_message ∧ response res.1.2 = response one_message ∧
   store res.1.2 = store (with_reference (Some (PStr "2015-02-05")) one_message)) ∧
  (let res := send (PostResponse 200 (Some (PDict [("id", PInt 7)]))) true None one_message in
   payload res.1.2 = [] ∧ response res.1.2 = payload one_message ∧
   ∃ received, extracted one_message (PDict [("id", PInt 7)]) = inr received ∧
     absorb (store (with_reference None one_message)) (zip (payload one_message) received)
     = (store res.1.2, None)).
Proof.
  split.
  - apply (proj1 (send_state (PostRaises ConnectionError) true (Some (PStr "2015-02-05"))
                    one_message) (MprofiConnectionError cant_reach)).
    + vm_compute. reflexivity.
    + reflexivity.
  - apply (proj2 (send_state (PostResponse 200 (Some (PDict [("id", PInt 7)]))) true None
                    one_message) (PDict [("id", PInt 7)])).
    vm_compute. reflexivity.
Defined.

(** C10, refuted as stated.  A lone message sent with a reference: the
    request cannot reach the API, [send] raises [MprofiConnectionError],
    and the stored message has gained a [reference] entry it did not have.
    Two messages answered by a body without [result]: [send] raises
    [KeyError] with the payload already reset and the response already
    set. *)
Lemma send_raises_with_state_changed :
  (let res := send (PostRaises ConnectionError) true (Some (PStr "2015-02-05")) one_message in
   res.2 = inl (MprofiConnectionError cant_reach) ∧
   payload one_message = [1%positive] ∧
   deref (store one_message) 1 !! KStr "reference" = None ∧
   deref (store res.1.2) 1 !! KStr "reference" = Some (PStr "2015-02-05")) ∧
  (let res := send (PostResponse 200 (Some (PDict [("detail", PStr "?")]))) true None two_messages in
   res.2 = inl (KeyError "result") ∧
   payload two_messages = [1%positive; 2%positive] ∧ response two_messages = [] ∧
   payload res.1.2 = [] ∧ response res.1.2 = [1%positive; 2%positive]).
Proof. vm_compute. repeat split; reflexivity. Qed.

End MprofiFacts.

(* ===================================================================== *)
(** * More about the SMS connector: [add_message], and [send] after it    *)
(* ===================================================================== *)

Module ConnectorFacts.
Import Mprofi.

Lemma add_message_eq recipient message st :
  recipient ≠ EmptyString → message ≠ EmptyString →
  add_message recipient message st =
  ([], State (token st) (payload st ++ [fresh (dom (store st))]) (response st)
         (<[fresh (dom (store st)) :=
              {[ KStr "recipient" := PStr recipient; KStr "message" := PStr message ]}]>
            (store st)),
   inr ()).
Proof.
  intros Hr Hm. unfold add_message. by rewrite !decide_False by done.
Qed.

Lemma absorb_elsewhere h pairs m :
  m ∉ pairs.*1 → (absorb h pairs).1 !! m = h !! m.
Proof.
  revert h. induction pairs as [|[m' rm] rest IH]; intros h Hm; [reflexivity|].
  cbn [absorb]. rewrite fmap_cons, not_elem_of_cons in Hm. destruct Hm as [Hne Hm].
  destruct (dict_update (deref h m') rm) as [d [e|]]; cbn [fst].
  - by rewrite lookup_insert_ne.
  - rewrite IH by done. by rewrite lookup_insert_ne.
Qed.

Lemma with_reference_elsewhere reference st m :
  m ∉ payload st → store (with_reference reference st) !! m = store st !! m.
Proof.
  unfold with_reference. destruct (payload st) as [|m' [|? ?]], reference; try done.
  intros Hm%not_elem_of_cons. cbn [store]. by rewrite lookup_insert_ne by (by destruct Hm).
Qed.

(** X1: [add_message] with an empty recipient or an empty text raises
    [ValueError], makes no request and leaves the connector as it was. *)
Theorem add_message_rejects_empty recipient message st :
  recipient = EmptyString ∨ message = EmptyString →
  ∃ text, add_message recipient message st = ([], st, inl (ValueError text)).
Proof.
  intros H. unfold add_message.
  destruct (decide (recipient = EmptyString)); [by eexists|].
  destruct (decide (message = EmptyString)); [by eexists|].
  by destruct H.
Qed.

Lemma add_message_rejects_empty_witness :
  ∃ text, add_message "111222333" "" one_message = ([], one_message, inl (ValueError text)).
Proof. apply add_message_rejects_empty. right. reflexivity. Defined.

(** X2: [add_message] with a recipient and a text appends one message to
    the payload: a new object, distinct from every stored one, holding the
    two entries.  The messages already stored, the response list and the
    token are as before, and no request is made. *)
Theorem add_message_appends recipient message st :
  recipient ≠ EmptyString → message ≠ EmptyString →
  ∃ l, store st !! l = None ∧
    add_message recipient message st =
    ([], State (token st) (payload st ++ [l]) (response st)
           (<[l := {[ KStr "recipient" := PStr recipient; KStr "message" := PStr message ]}]>
              (store st)),
     inr ()).
Proof.
  intros Hr Hm. exists (fresh (dom (store st))). split.
  - apply not_elem_of_dom, is_fresh.
  - by apply add_message_eq.
Qed.

Lemma add_message_appends_witness :
  ∃ l, store one_message !! l = None ∧
    payload (add_message "444555666" "Hello!" one_message).1.2 = payload one_message ++ [l].
Proof.
  destruct (add_message_appends "444555666" "Hello!" one_message) as (l & Hl & ->);
    [discriminate|discriminate|].
  exists l. split; [exact Hl|reflexivity].
Defined.

(** X3: a message added to a connector with an empty payload and then
    sent goes, alone, to the [send] endpoint, as the dictionary
    [add_message] built, with the reference if one is given. *)
Theorem add_message_then_send recipient message answer has_JSONDecodeError reference st :
  payload st = [] → recipient ≠ EmptyString → message ≠ EmptyString →
  (send answer has_JSONDecodeError reference (add_message recipient message st).1.2).1.1 =
  [Post "https://api.mprofi.pl/1.0/send/"
     (FormMessage
        (let d := {[ KStr "recipient" := PStr recipient; KStr "message" := PStr message ]} in
         match reference with Some r => <[KStr "reference" := r]> d | None => d end))].
Proof.
  intros Hp Hr Hm. rewrite (add_message_eq recipient message st Hr Hm).
  cbn [fst snd]. rewrite Hp. cbn [app].
  rewrite MprofiFacts.send_nonempty by done. cbv zeta.
  unfold request_url, request_form, with_reference. cbn [payload store].
  destruct (exchange answer has_JSONDecodeError) as [e|v]; cbn [fst snd].
  all: try destruct (extracted _ v); cbn [fst snd].
  all: destruct reference; cbn [store]; unfold deref; rewrite ?lookup_insert_eq;
    cbn [from_option id]; rewrite ?lookup_insert_eq; reflexivity.
Qed.

Lemma add_message_then_send_witness :
  (send (PostRaises ConnectionError) true (Some (PStr "motion"))
     (add_message "111222333" "Welcome!" (init "token" [] ∅)).1.2).1.1 =
  [Post "https://api.mprofi.pl/1.0/send/"
     (FormMessage (<[KStr "reference" := PStr "motion"]>
        {[ KStr "recipient" := PStr "111222333"; KStr "message" := PStr "Welcome!" ]}))].
Proof.
  apply (add_message_then_send "111222333" "Welcome!" (PostRaises ConnectionError) true
           (Some (PStr "motion")) (init "token" [] ∅)); [reflexivity|discriminate|discriminate].
Defined.

(** X4: once [send] has returned, the payload is spent: a second [send]
    raises [ValueError] and makes no request. *)
Theorem send_twice answer has_JSONDecodeError reference answer' has_JSONDecodeError'
    reference' st v :
  (send answer has_JSONDecodeError reference st).2 = inr v →
  send answer' has_JSONDecodeError' reference'
    (send answer has_JSONDecodeError reference st).1.2 =
  ([], (send answer has_JSONDecodeError reference st).1.2,
   inl (ValueError "Empty payload. Please use `add_message` first.")).
Proof.
  intros Hv. apply MprofiFacts.send_empty. revert Hv.
  destruct (decide (payload st = [])) as [Hp|Hp].
  - by rewrite MprofiFacts.send_empty.
  - rewrite MprofiFacts.send_nonempty by done. cbv zeta.
    destruct (exchange answer has_JSONDecodeError) as [e|v']; [discriminate|].
    destruct (extracted st v'); [discriminate|]. reflexivity.
Qed.

Lemma send_twice_witness :
  (send (PostResponse 200 (Some (PDict [("id", PInt 8)]))) true None
     (send (PostResponse 200 (Some (PDict [("id", PInt 7)]))) true None one_message).1.2).2 =
  inl (ValueError "Empty payload. Please use `add_message` first.").
Proof.
  rewrite (send_twice (PostResponse 200 (Some (PDict [("id", PInt 7)]))) true None
             (PostResponse 200 (Some (PDict [("id", PInt 8)]))) true None one_message
             (PDict [("id", PInt 7)])); [reflexivity|].
  vm_compute. reflexivity.
Defined.

(** X5: [send] writes only to the messages of its payload: every other
    stored object, the messages of earlier calls among them, is as
    before, whether [send] returns or raises. *)
Theorem send_frame answer has_JSONDecodeError reference st m :
  m ∉ payload st →
  store (send answer has_JSONDecodeError reference st).1.2 !! m = store st !! m.
Proof.
  intros Hm. destruct (decide (payload st = [])) as [Hp|Hp].
  - by rewrite MprofiFacts.send_empty.
  - rewrite MprofiFacts.send_nonempty by done. cbv zeta.
    pose proof (with_reference_elsewhere reference st m Hm) as Hw.
    destruct (exchange answer has_JSONDecodeError) as [e|v]; [done|].
    destruct (extracted st v) as [e|received]; [done|].
    cbn [fst snd store]. rewrite absorb_elsewhere; [done|].
    intros ([m' r] & -> & Hin%elem_of_zip_l)%list_elem_of_fmap. done.
Qed.

Lemma send_frame_witness :
  store (send (PostResponse 200 (Some (PDict [("id", PInt 14)]))) true (Some (PStr "ref"))
           (add_message "777888999" "Again" MprofiStatus.two_sent).1.2).1.2 !! 1%positive
  = store (add_message "777888999" "Again" MprofiStatus.two_sent).1.2 !! 1%positive.
Proof.
  apply (send_frame (PostResponse 200 (Some (PDict [("id", PInt 14)]))) true
           (Some (PStr "ref")) (add_message "777888999" "Again" MprofiStatus.two_sent).1.2 1%positive).
  vm_compute. intros H. inversion H as [|? ? ? H']. inversion H'.
Defined.

End ConnectorFacts.

(* ===================================================================== *)
(** * Facts about [get_status]                                            *)
(* ===================================================================== *)

Module StatusFacts.
Import Mprofi MprofiStatus.

Lemma status_bind_eq {A B} (m : R A) (f : A → R B) :
  m ≫= f = match m.2 with
           | inl e => (m.1, inl e)
           | inr a => (m.1 ++ (f a).1, (f a).2)
           end.
Proof. reflexivity. Qed.

Lemma collect_ids_ok h sent ids :
  Forall2 (λ m i, deref h m !! KStr "id" = Some i) sent ids →
  collect_ids h sent = ([], inr ids).
Proof.
  induction 1 as [|m i sent ids Hm _ IH]; [reflexivity|].
  cbn [collect_ids]. rewrite Hm, status_bind_eq, IH. reflexivity.
Qed.

Lemma collect_ids_missing h sent m :
  m ∈ sent → deref h m !! KStr "id" = None →
  collect_ids h sent = ([], inl (Raised (KeyError "id"))).
Proof.
  intros Hin Hm. induction sent as [|m' sent IH]; [by apply elem_of_nil in Hin|].
  cbn [collect_ids]. destruct (deref h m' !! KStr "id") as [i|] eqn:Hi; [|reflexivity].
  apply elem_of_cons in Hin as [->|Hin]; [congruence|].
  by rewrite status_bind_eq, (IH Hin).
Qed.

Lemma answered_inv a message_id :
  answered a message_id = true →
  ∃ status v key, a = PostResponse status (Some v) ∧
    (400 <=? status) && (status <? 600) = false ∧ as_key message_id = inr key.
Proof.
  unfold answered. destruct a as [|status [v|]]; try discriminate.
  destruct (as_key message_id) as [|key]; [discriminate|].
  intros H%negb_true_iff. by exists status, v, key.
Qed.

Lemma take_S_fmap ids n (message_id : pyval) :
  ids !! n = Some message_id →
  (Get status_full_url <$> take n ids) ++ [Get status_full_url message_id]
  = Get status_full_url <$> take (S n) ids.
Proof. intros Hn. by rewrite (take_S_r _ _ _ Hn), fmap_app. Qed.

Section WithAnswers.
Variable answers : nat → post_result.
Variable has_JSONDecodeError : bool.

Lemma store_decoded_trace message_id body collected :
  (store_decoded has_JSONDecodeError message_id body collected).1 = [].
Proof.
  unfold store_decoded, try_except, mbind, R_bind, raise, mret, R_ret.
  destruct body as [v|], has_JSONDecodeError, (as_key message_id) as [[]|k]; reflexivity.
Qed.

Lemma handlers_raise {A} message_id resp e :
  ∃ e', @handlers A message_id resp e = ([], inl e').
Proof.
  destruct e as [[]| |]; cbn [handlers]; try (by eexists).
  destruct resp as [[s b]|]; [|by eexists]. cbn [fst]. destruct (negb _); by eexists.
Qed.

Lemma request_eq n message_id resp :
  try_except (session_get answers n status_full_url message_id) (handlers message_id resp) =
  ([Get status_full_url message_id],
   match answers n with
   | PostRaises e => (@handlers (Z * option pyval) message_id resp (Raised e)).2
   | PostResponse status body => inr (status, body)
   end).
Proof.
  unfold try_except, session_get. cbn [fst snd].
  destruct (answers n) as [e|status body]; [|reflexivity].
  by destruct (@handlers_raise (Z * option pyval) message_id resp (Raised e)) as [e' ->].
Qed.

(** One pass of the loop, by the answer to its request. *)
Lemma status_loop_cons n message_id rest resp collected :
  status_loop answers has_JSONDecodeError n (message_id :: rest) resp collected =
  match answers n with
  | PostRaises e =>
      ([Get status_full_url message_id], (@handlers dict message_id resp (Raised e)).2)
  | PostResponse status body =>
      if (400 <=? status) && (status <? 600) then
        ([Get status_full_url message_id],
         inl (if status =? 404 then MprofiNotFoundError message_id
              else Raised (MprofiAuthError auth_failed)))
      else
        match (store_decoded has_JSONDecodeError message_id body collected).2 with
        | inl e => ([Get status_full_url message_id], inl e)
        | inr collected' =>
            (Get status_full_url message_id
               :: (status_loop answers has_JSONDecodeError (S n) rest
                     (Some (status, body)) collected').1,
             (status_loop answers has_JSONDecodeError (S n) rest
                (Some (status, body)) collected').2)
        end
  end.
Proof.
  cbn [status_loop]. rewrite status_bind_eq, request_eq. cbn [fst snd].
  destruct (answers n) as [e|status body].
  - destruct e; try reflexivity.
    destruct resp as [[s b]|]; cbn [handlers fst]; [destruct (negb _)|]; reflexivity.
  - rewrite status_bind_eq. unfold raise_for_status. cbn [fst snd].
    destruct ((400 <=? status) && (status <? 600)).
    + unfold try_except, raise. cbn [fst snd handlers].
      destruct (status =? 404); reflexivity.
    + cbn [try_except fst snd mret R_ret app]. rewrite status_bind_eq.
      rewrite store_decoded_trace.
      destruct (store_decoded has_JSONDecodeError message_id body collected).2; reflexivity.
Qed.

Lemma status_loop_served k : ∀ ids n resp collected,
  (k ≤ length ids)%nat →
  (∀ i message_id, (i < k)%nat → ids !! i = Some message_id →
     answered (answers (n + i)) message_id = true) →
  ∃ resp' collected',
    status_loop answers has_JSONDecodeError n ids resp collected =
    ((Get status_full_url <$> take k ids)
       ++ (status_loop answers has_JSONDecodeError (n + k) (drop k ids) resp' collected').1,
     (status_loop answers has_JSONDecodeError (n + k) (drop k ids) resp' collected').2).
Proof.
  induction k as [|k IH]; intros ids n resp collected Hk Hs.
  - exists resp, collected. rewrite Nat.add_0_r, drop_0. cbn [take fmap list_fmap app].
    by destruct (status_loop _ _ _ _ _ _).
  - destruct ids as [|message_id rest]; [cbn in Hk; lia|].
    destruct (answered_inv _ _ (Hs 0%nat message_id ltac:(lia) eq_refl))
      as (status & v & key & Ha & Hstatus & Hkey).
    rewrite Nat.add_0_r in Ha.
    destruct (IH rest (S n) (Some (status, Some v)) (<[key := v]> collected))
      as (resp' & collected' & IH').
    { cbn in Hk. lia. }
    { intros i id Hi Hid. replace (S n + i)%nat with (n + S i)%nat by lia.
      apply Hs; [lia|done]. }
    exists resp', collected'. rewrite status_loop_cons, Ha, Hstatus.
    unfold store_decoded, try_except. rewrite status_bind_eq. cbn [mret R_ret fst snd].
    rewrite Hkey. cbn [mret R_ret fst snd app]. rewrite IH'. cbn [fst snd].
    replace (n + S k)%nat with (S n + k)%nat by lia. reflexivity.
Qed.

Lemma get_status_served ids n message_id st :
  served answers ids n → ids !! n = Some message_id →
  ∃ rest resp collected,
    get_status answers has_JSONDecodeError (Some ids) st =
    ((Get status_full_url <$> take n ids)
       ++ (status_loop answers has_JSONDecodeError n (message_id :: rest) resp collected).1,
     (status_loop answers has_JSONDecodeError n (message_id :: rest) resp collected).2).
Proof.
  intros Hs Hn. unfold get_status. rewrite status_bind_eq. cbn [mret R_ret fst snd app].
  destruct (status_loop_served n ids 0 None ∅) as (resp & collected & ->).
  { apply lookup_lt_Some in Hn. lia. }
  { intros i id Hi Hid. by apply Hs. }
  rewrite (drop_S _ _ _ Hn). cbn [Nat.add]. by exists (drop (S n) ids), resp, collected.
Qed.

Lemma status_loop_success ids : ∀ n resp collected,
  (∀ i message_id, ids !! i = Some message_id →
     answered (answers (n + i)) message_id = true) →
  ∃ collected',
    status_loop answers has_JSONDecodeError n ids resp collected
    = (Get status_full_url <$> ids, inr collected') ∧
    (∀ key, (∀ message_id, message_id ∈ ids → as_key message_id ≠ inr key) →
       collected' !! key = collected !! key) ∧
    (∀ key, is_Some (collected' !! key) →
       is_Some (collected !! key) ∨
       ∃ message_id, message_id ∈ ids ∧ as_key message_id = inr key) ∧
    (∀ i message_id key status v,
       ids !! i = Some message_id → as_key message_id = inr key →
       answers (n + i) = PostResponse status (Some v) →
       (∀ j later, (i < j)%nat → ids !! j = Some later → as_key later ≠ inr key) →
       collected' !! key = Some v).
Proof.
  induction ids as [|message_id rest IH]; intros n resp collected Hs.
  - exists collected. split; [reflexivity|]. split; [done|]. split; [by left|].
    intros i id key status v Hid. by rewrite lookup_nil in Hid.
  - destruct (answered_inv _ _ (Hs 0%nat message_id eq_refl))
      as (status & v & key & Ha & Hstatus & Hkey).
    rewrite Nat.add_0_r in Ha.
    destruct (IH (S n) (Some (status, Some v)) (<[key := v]> collected))
      as (collected' & Hloop & Hout & Hdom & Hin).
    { intros i id Hid. replace (S n + i)%nat with (n + S i)%nat by lia. by apply Hs. }
    exists collected'. split; [|split; [|split]].
    + rewrite status_loop_cons, Ha, Hstatus.
      unfold store_decoded, try_except. rewrite status_bind_eq. cbn [mret R_ret fst snd].
      rewrite Hkey. cbn [mret R_ret fst snd app]. by rewrite Hloop.
    + intros key' Hno. rewrite Hout.
      * apply lookup_insert_ne. intros ->. apply (Hno message_id); [left|done].
      * intros id Hid. apply Hno. by right.
    + intros key' Hsome. destruct (Hdom key' Hsome) as [Hc|(id & Hid & Hk)].
      * destruct (decide (key' = key)) as [->|Hne].
        -- right. exists message_id. split; [left|done].
        -- left. by rewrite lookup_insert_ne in Hc.
      * right. exists id. split; [by right|done].
    + intros [|i] id key' status' v' Hid Hkey' Hans Hlast.
      * injection Hid as <-. rewrite Nat.add_0_r, Ha in Hans. injection Hans as <- <-.
        rewrite Hkey in Hkey'. injection Hkey' as <-.
        rewrite Hout; [by rewrite lookup_insert_eq|].
        intros later [j Hj]%list_elem_of_lookup. by apply (Hlast (S j) later); [lia|].
      * apply (Hin i id key' status' v'); [done|done| |].
        -- by replace (S n + i)%nat with (n + S i)%nat by lia.
        -- intros j later Hj Hlater. apply (Hlast (S j) later); [lia|done].
Qed.


End WithAnswers.


(** X7: an error status ends the call: 404 with [MprofiNotFoundError] for
    the id asked about, any other client or server error (400 to 599) with
    [MprofiAuthError]; the ids after it are not asked about. *)
Theorem get_status_error_status answers has_JSONDecodeError ids n message_id status body st :
  served answers ids n → ids !! n = Some message_id →
  answers n = PostResponse status body → 400 <= status < 600 →
  get_status answers has_JSONDecodeError (Some ids) st =
  (Get status_full_url <$> take (S n) ids,
   inl (if status =? 404 then MprofiNotFoundError message_id
        else Raised (MprofiAuthError auth_failed))).
Proof.
  intros Hs Hn Ha [H1 H2].
  destruct (get_status_served answers has_JSONDecodeError ids n message_id st Hs Hn)
    as (rest & resp & collected & ->).
  rewrite status_loop_cons, Ha.
  apply Z.leb_le in H1. apply Z.ltb_lt in H2. rewrite H1, H2. cbn [andb fst snd].
  by rewrite take_S_fmap.
Qed.

Lemma get_status_error_status_witness :
  get_status (sample_answers (PostResponse 404 None)) true
    (Some [PInt 12; PInt 13; PInt 14]) two_sent =
  ([Get status_full_url (PInt 12); Get status_full_url (PInt 13)],
   inl (MprofiNotFoundError (PInt 13))).
Proof.
  apply (get_status_error_status (sample_answers (PostResponse 404 None)) true
           [PInt 12; PInt 13; PInt 14] 1 (PInt 13) 404 None two_sent).
  - intros [|i] id Hi Hid; [|lia]. injection Hid as <-. reflexivity.
  - reflexivity.
  - reflexivity.
  - lia.
Defined.

(** X8: a request that cannot reach the API ends the call with
    [MprofiConnectionError]; the ids after it are not asked about. *)
Theorem get_status_unreachable answers has_JSONDecodeError ids n message_id st :
  served answers ids n → ids !! n = Some message_id →
  answers n = PostRaises ConnectionError →
  get_status answers has_JSONDecodeError (Some ids) st =
  (Get status_full_url <$> take (S n) ids, inl (Raised (MprofiConnectionError cant_reach))).
Proof.
  intros Hs Hn Ha.
  destruct (get_status_served answers has_JSONDecodeError ids n message_id st Hs Hn)
    as (rest & resp & collected & ->).
  rewrite status_loop_cons, Ha. cbn [handlers raise fst snd].
  by rewrite take_S_fmap.
Qed.

Lemma get_status_unreachable_witness :
  get_status (sample_answers (PostRaises ConnectionError)) true
    (Some [PInt 12; PInt 13; PInt 14]) two_sent =
  ([Get status_full_url (PInt 12); Get status_full_url (PInt 13)],
   inl (Raised (MprofiConnectionError cant_reach))).
Proof.
  apply (get_status_unreachable (sample_answers (PostRaises ConnectionError)) true
           [PInt 12; PInt 13; PInt 14] 1 (PInt 13) two_sent).
  - intros [|i] id Hi Hid; [|lia]. injection Hid as <-. reflexivity.
  - reflexivity.
  - reflexivity.
Defined.

(** X9: a body that is not JSON ends the call with [MprofiConnectionError]
    where the [json] module has a [JSONDecodeError], and with
    [AttributeError] where it has none. *)
Theorem get_status_not_json answers has_JSONDecodeError ids n message_id status st :
  served answers ids n → ids !! n = Some message_id →
  answers n = PostResponse status None → ¬ (400 <= status < 600) →
  get_status answers has_JSONDecodeError (Some ids) st =
  (Get status_full_url <$> take (S n) ids,
   inl (Raised (if has_JSONDecodeError then MprofiConnectionError cant_reach
                else AttributeError "JSONDecodeError"))).
Proof.
  intros Hs Hn Ha Hstatus.
  destruct (get_status_served answers has_JSONDecodeError ids n message_id st Hs Hn)
    as (rest & resp & collected & ->).
  rewrite status_loop_cons, Ha.
  replace ((400 <=? status) && (status <? 600)) with false
    by (symmetry; apply not_true_iff_false; rewrite andb_true_iff, Z.leb_le, Z.ltb_lt; lia).
  unfold store_decoded, try_except. rewrite status_bind_eq.
  destruct has_JSONDecodeError; cbn [raise negb fst snd app]; by rewrite take_S_fmap.
Qed.

Lemma get_status_not_json_witness :
  get_status (sample_answers (PostResponse 200 None)) false
    (Some [PInt 12; PInt 13; PInt 14]) two_sent =
  ([Get status_full_url (PInt 12); Get status_full_url (PInt 13)],
   inl (Raised (AttributeError "JSONDecodeError"))).
Proof.
  apply (get_status_not_json (sample_answers (PostResponse 200 None)) false
           [PInt 12; PInt 13; PInt 14] 1 (PInt 13) 200 two_sent).
  - intros [|i] id Hi Hid; [|lia]. injection Hid as <-. reflexivity.
  - reflexivity.
  - reflexivity.
  - lia.
Defined.

(** X10: when every request is answered with a JSON body and no error
    status, [get_status] asks about every id, in order, and returns a
    dictionary whose keys are the ids asked about, each with the body of
    the last answer about it. *)
Theorem get_status_collects answers has_JSONDecodeError ids st :
  served answers ids (length ids) →
  ∃ collected,
    get_status answers has_JSONDecodeError (Some ids) st
    = (Get status_full_url <$> ids, inr collected) ∧
    (∀ key, is_Some (collected !! key) →
       ∃ message_id, message_id ∈ ids ∧ as_key message_id = inr key) ∧
    (∀ i message_id key status v,
       ids !! i = Some message_id → as_key message_id = inr key →
       answers i = PostResponse status (Some v) →
       (∀ j later, (i < j)%nat → ids !! j = Some later → as_key later ≠ inr key) →
       collected !! key = Some v).
Proof.
  intros Hs.
  destruct (status_loop_success answers has_JSONDecodeError ids 0 None ∅)
    as (collected & Hloop & Hout & Hdom & Hin).
  { intros i id Hid. apply Hs; [|done]. by apply lookup_lt_Some in Hid. }
  exists collected. split; [|split].
  - unfold get_status. rewrite status_bind_eq. cbn [mret R_ret fst snd app]. by rewrite Hloop.
  - intros key Hsome. destruct (Hdom key Hsome) as [Hc|?]; [|done].
    rewrite lookup_empty in Hc. by destruct Hc.
  - intros i id key status v. apply Hin.
Qed.

Lemma get_status_collects_witness :
  ∃ collected,
    get_status (sample_answers (PostResponse 200 (Some (PStr "SENT")))) true
      (Some [PInt 12; PInt 13]) two_sent
    = ([Get status_full_url (PInt 12); Get status_full_url (PInt 13)], inr collected) ∧
    collected !! KInt 13 = Some (PStr "SENT").
Proof.
  destruct (get_status_collects (sample_answers (PostResponse 200 (Some (PStr "SENT")))) true
              [PInt 12; PInt 13] two_sent) as (collected & Heq & _ & Hlast).
  - intros [|[|i]] id Hi Hid; cbn in Hi; [| |lia]; injection Hid as <-; reflexivity.
  - exists collected. split; [exact Heq|].
    apply (Hlast 1%nat (PInt 13) (KInt 13) 200 (PStr "SENT")); [reflexivity..|].
    intros [|[|j]] later Hj Hlater; [lia|lia|discriminate].
Defined.

(** X11: without ids, [get_status] asks about the [id] of each message of
    the last [send], in the order they were sent. *)
Theorem get_status_default answers has_JSONDecodeError ids st :
  Forall2 (λ m i, deref (store st) m !! KStr "id" = Some i) (response st) ids →
  get_status answers has_JSONDecodeError None st
  = get_status answers has_JSONDecodeError (Some ids) st.
Proof.
  intros H. unfold get_status. by rewrite (collect_ids_ok _ _ _ H).
Qed.

Lemma get_status_default_witness :
  get_status (sample_answers (PostResponse 404 None)) true None two_sent
  = get_status (sample_answers (PostResponse 404 None)) true
      (Some [PInt 12; PInt 13]) two_sent.
Proof.
  apply (get_status_default (sample_answers (PostResponse 404 None)) true
           [PInt 12; PInt 13] two_sent).
  repeat constructor.
Defined.

(** X12: without ids, a sent message that has received no [id] makes
    [get_status] raise [KeyError] before any request. *)
Theorem get_status_missing_id answers has_JSONDecodeError st m :
  m ∈ response st → deref (store st) m !! KStr "id" = None →
  get_status answers has_JSONDecodeError None st = ([], inl (Raised (KeyError "id"))).
Proof.
  intros Hin Hm. unfold get_status. by rewrite (collect_ids_missing _ _ _ Hin Hm).
Qed.

Lemma get_status_missing_id_witness :
  get_status (sample_answers (PostResponse 404 None)) true None
    (send (PostResponse 200 (Some (PDict [("result", PList [PDict [("id", PInt 12)]])])))
       true None two_messages).1.2
  = ([], inl (Raised (KeyError "id"))).
Proof.
  apply (get_status_missing_id (sample_answers (PostResponse 404 None)) true
           (send (PostResponse 200 (Some (PDict [("result", PList [PDict [("id", PInt 12)]])])))
              true None two_messages).1.2 2%positive).
  - vm_compute. right. left.
  - vm_compute. reflexivity.
Defined.

(** X13: [send] then [get_status]: the id the API gave to a lone message
    is the one [get_status] then asks about, in a single request. *)
Theorem send_then_get_status answers has_JSONDecodeError answer has_JSONDecodeError'
    reference status body i m st :
  payload st = [m] → answer = PostResponse status (Some body) →
  ¬ (400 <= status < 600) → getitem body "id" = inr i →
  (send answer has_JSONDecodeError' reference st).2 = inr body ∧
  (get_status answers has_JSONDecodeError None
     (send answer has_JSONDecodeError' reference st).1.2).1
  = [Get status_full_url i].
Proof.
  intros Hp -> Hstatus Hi.
  rewrite MprofiFacts.send_nonempty by (by rewrite Hp). cbv zeta.
  unfold exchange.
  replace ((400 <=? status) && (status <? 600)) with false
    by (symmetry; apply not_true_iff_false; rewrite andb_true_iff, Z.leb_le, Z.ltb_lt; lia).
  unfold extracted. rewrite Hp, Hi.
  cbn [zip zip_with absorb dict_update foldl fst snd]. split; [reflexivity|].
  unfold get_status. rewrite (collect_ids_ok _ _ [i]).
  - rewrite status_bind_eq. cbn [mret R_ret fst snd app]. rewrite status_loop_cons.
    destruct (answers 0%nat) as [e|s b].
    + by destruct (@handlers_raise dict i None (Raised e)) as [e' ->].
    + destruct (_ && _); [done|]. by destruct (store_decoded _ _ _ _).2.
  - cbn [response store]. constructor; [|constructor].
    unfold deref. rewrite lookup_insert_eq. cbn [from_option id]. by rewrite lookup_insert_eq.
Qed.

Lemma send_then_get_status_witness :
  (get_status (sample_answers (PostResponse 404 None)) true None
     (send (PostResponse 200 (Some (PDict [("id", PInt 7)]))) true None one_message).1.2).1
  = [Get status_full_url (PInt 7)].
Proof.
  apply (send_then_get_status (sample_answers (PostResponse 404 None)) true
           (PostResponse 200 (Some (PDict [("id", PInt 7)]))) true None 200
           (PDict [("id", PInt 7)]) (PInt 7) 1%positive one_message);
    [reflexivity|reflexivity|lia|reflexivity].
Defined.

End StatusFacts.

(* ===================================================================== *)
(** * Facts about the motion trigger                                      *)
(* ===================================================================== *)

Module MotionFacts.
Import Motion.

Lemma motion_bind_eq {A B} (m : M A) (f : A → M B) :
  m ≫= f = match m.2 with
           | inl e => (m.1, inl e)
           | inr a => (m.1 ++ (f a).1, (f a).2)
           end.
Proof. reflexivity. Qed.

Section WithWorld.
Variable c : conf.
Variable w : world.

Lemma detected_raises : ∃ e, (detected c w).2 = inl e.
Proof.
  unfold detected, call, emit, raise. rewrite !motion_bind_eq. cbn [fst snd].
  destruct (urlopen w); [by eexists|]. cbn [fst snd].
  destruct (connect w); [by eexists|]. cbn [fst snd].
  destruct (loop_forever w); by eexists.
Qed.

(** One pass of the [for] loop, by the level of the pin. *)
Lemma polling_cons num rest i :
  polling c w (num :: rest) i =
  if gpio w i =? 1 then (GpioInput (gpio_pin c) :: (detected c w).1, (detected c w).2)
  else (GpioInput (gpio_pin c) :: Sleep 1 :: (polling c w rest (S i)).1,
        (polling c w rest (S i)).2).
Proof.
  cbn [polling]. destruct (gpio w i =? 1).
  - destruct detected_raises as [e He]. rewrite !motion_bind_eq. cbn [emit fst snd app].
    by rewrite He.
  - rewrite !motion_bind_eq. cbn [emit mret M_ret fst snd app]. reflexivity.
Qed.

Lemma polling_quiet nums : ∀ i,
  (∀ j, (i ≤ j < i + length nums)%nat → gpio w j ≠ 1) →
  polling c w nums i
  = (mjoin (replicate (length nums) [GpioInput (gpio_pin c); Sleep 1]), inr ()).
Proof.
  induction nums as [|num rest IH]; intros i Hq; [reflexivity|].
  rewrite polling_cons.
  destruct (Z.eqb_spec (gpio w i) 1) as [H1|_].
  { exfalso. apply (Hq i); [cbn [length]; lia|done]. }
  rewrite IH; [reflexivity|]. intros j Hj. apply Hq. cbn [length]. lia.
Qed.

Lemma polling_first k : ∀ nums i,
  (k < length nums)%nat →
  (∀ j, (i ≤ j < i + k)%nat → gpio w j ≠ 1) → gpio w (i + k) = 1 →
  polling c w nums i =
  (mjoin (replicate k [GpioInput (gpio_pin c); Sleep 1])
     ++ GpioInput (gpio_pin c) :: (detected c w).1,
   (detected c w).2).
Proof.
  induction k as [|k IH]; intros nums i Hk Hq H1.
  - destruct nums as [|num rest]; [cbn in Hk; lia|].
    rewrite polling_cons. rewrite Nat.add_0_r in H1. rewrite H1. reflexivity.
  - destruct nums as [|num rest]; [cbn in Hk; lia|].
    rewrite polling_cons.
    destruct (Z.eqb_spec (gpio w i) 1) as [Hi|_].
    { exfalso. apply (Hq i); [lia|done]. }
    rewrite (IH rest (S i)); [reflexivity| | |].
    + cbn in Hk. lia.
    + intros j Hj. apply Hq. lia.
    + by replace (S i + k)%nat with (i + S k)%nat by lia.
Qed.

Lemma script_eq :
  script c w =
  ([Setmode; Setup (gpio_pin c); UsernamePwSet (mqtt_uname c) (mqtt_pw c)]
     ++ (polling c w (seq 1 119) 0).1,
   (polling c w (seq 1 119) 0).2).
Proof. unfold script. rewrite !motion_bind_eq. reflexivity. Qed.

Lemma polling_bounds nums : ∀ i,
  (length (polls (polling c w nums i).1) ≤ length nums)%nat ∧
  (length (requests (polling c w nums i).1) ≤ 1)%nat ∧
  Forall (λ n, n = 1) (sleeps (polling c w nums i).1).
Proof.
  induction nums as [|num rest IH]; intros i.
  - cbn. repeat split; try lia. constructor.
  - rewrite polling_cons. destruct (gpio w i =? 1).
    + unfold detected, call, emit, raise. rewrite !motion_bind_eq. cbn [fst snd].
      destruct (urlopen w); [cbn; repeat split; try lia; constructor|].
      destruct (connect w); [cbn; repeat split; try lia; constructor|].
      destruct (loop_forever w); cbn; repeat split; try lia; constructor.
    + destruct (IH (S i)) as (Hp & Hr & Ha). cbn [fst snd].
      unfold polls, requests, sleeps in *. cbn [omap list_omap length].
      repeat split; [lia|done|by constructor].
Qed.

Lemma disconnects_sms t : disconnects (Sms <$> t) = [].
Proof. by induction t. Qed.

Lemma disconnects_app t1 t2 : disconnects (t1 ++ t2) = disconnects t1 ++ disconnects t2.
Proof. apply omap_app. Qed.

(** [on_message], by whether the message alerts and how the connector
    fares. *)
Lemma on_message_eq topic payload :
  on_message c w topic payload =
  let shown := Print ("Topic:  " +:+ topic +:+ newline +:+ "Message: " +:+ payload) in
  if alerts (clock_hour w) payload then
    let connector :=
      Mprofi.init (if decide (mprofi_key c = EmptyString) then environ_token w
                   else mprofi_key c) [] ∅ in
    let added := Mprofi.add_message (mprofi_recipient c) (mprofi_message c) connector in
    match added.2 with
    | inl e => (shown :: (Sms <$> added.1.1), inl (Connector e))
    | inr _ =>
        let sent := Mprofi.send (sms_answer w) (has_JSONDecodeError w) (mprofi_ref c)
                      added.1.2 in
        match sent.2 with
        | inl e => (shown :: (Sms <$> added.1.1) ++ (Sms <$> sent.1.1), inl (Connector e))
        | inr _ => (shown :: (Sms <$> added.1.1) ++ (Sms <$> sent.1.1) ++ [Disconnect], inr ())
        end
    end
  else ([shown; Disconnect], inr ()).
Proof.
  unfold on_message. cbv zeta. destruct (alerts (clock_hour w) payload); [|reflexivity].
  unfold mbind, M_bind, connector_call. cbn [emit fst snd app].
  destruct (Mprofi.add_message _ _ _).2 as [e|[]]; cbn [fst snd]; [reflexivity|].
  destruct (Mprofi.send _ _ _ _).2 as [e|v]; cbn [fst snd mret M_ret emit].
  - reflexivity.
  - by rewrite app_nil_r, <- app_assoc.
Qed.

End WithWorld.

(** X14: with the pin never high, the script polls it 119 times, a second
    apart, makes no request and ends by falling off the loop. *)
Theorem script_without_motion c w :
  (∀ i, (i < 119)%nat → gpio w i ≠ 1) →
  script c w =
  ([Setmode; Setup (gpio_pin c); UsernamePwSet (mqtt_uname c) (mqtt_pw c)]
     ++ mjoin (replicate 119 [GpioInput (gpio_pin c); Sleep 1]),
   inr ()).
Proof.
  intros Hq. rewrite script_eq, polling_quiet; [reflexivity|].
  intros j Hj. apply Hq. rewrite length_seq in Hj. lia.
Qed.

Lemma script_without_motion_witness :
  script sample_conf (sample_world 119 None 12) =
  ([Setmode; Setup 4; UsernamePwSet "user" "secret"]
     ++ mjoin (replicate 119 [GpioInput 4; Sleep 1]),
   inr ()).
Proof.
  apply (script_without_motion sample_conf (sample_world 119 None 12)).
  intros i Hi. cbn [gpio sample_world]. destruct (Nat.eqb_spec i 119); [lia|discriminate].
Defined.

(** X15: with the pin first high at poll [k], the script has slept [k]
    seconds; it then sends the reading, connects to the broker, runs the
    client loop, prints, and exits with status 0 without polling again. *)
Theorem script_on_motion c w k :
  (k < 119)%nat → (∀ i, (i < k)%nat → gpio w i ≠ 1) → gpio w k = 1 →
  urlopen w = None → connect w = None → loop_forever w = None →
  script c w =
  ([Setmode; Setup (gpio_pin c); UsernamePwSet (mqtt_uname c) (mqtt_pw c)]
     ++ mjoin (replicate k [GpioInput (gpio_pin c); Sleep 1])
     ++ [GpioInput (gpio_pin c);
         UrlOpen (thingspeak_baseURL c +:+ "&" +:+ thingspeak_field c +:+ "=" +:+ "1");
         Connect (mqtt_server c) (mqtt_port c) 60; LoopForever; Print "motion detected"],
   inl (SystemExit 0)).
Proof.
  intros Hk Hq H1 Hu Hc Hl. rewrite script_eq, (polling_first c w k).
  - unfold detected, call, emit, raise. rewrite !motion_bind_eq, Hu, Hc, Hl. reflexivity.
  - rewrite length_seq. lia.
  - intros j Hj. apply Hq. lia.
  - done.
Qed.

Lemma script_on_motion_witness :
  script sample_conf (sample_world 2 None 12) =
  ([Setmode; Setup 4; UsernamePwSet "user" "secret";
    GpioInput 4; Sleep 1; GpioInput 4; Sleep 1; GpioInput 4;
    UrlOpen "https://api.thingspeak.com/update?key=KEY&field1=1";
    Connect "broker.local" 1883 60; LoopForever; Print "motion detected"],
   inl (SystemExit 0)).
Proof.
  apply (script_on_motion sample_conf (sample_world 2 None 12) 2);
    [lia| |reflexivity..].
  intros i Hi. cbn [gpio sample_world]. destruct (Nat.eqb_spec i 2); [lia|discriminate].
Defined.

(** X16: when the request to ThingSpeak fails, the script ends with that
    exception: it never connects to the broker, so no alert follows. *)
Theorem script_request_failure c w k e :
  (k < 119)%nat → (∀ i, (i < k)%nat → gpio w i ≠ 1) → gpio w k = 1 →
  urlopen w = Some e →
  script c w =
  ([Setmode; Setup (gpio_pin c); UsernamePwSet (mqtt_uname c) (mqtt_pw c)]
     ++ mjoin (replicate k [GpioInput (gpio_pin c); Sleep 1])
     ++ [GpioInput (gpio_pin c);
         UrlOpen (thingspeak_baseURL c +:+ "&" +:+ thingspeak_field c +:+ "=" +:+ "1")],
   inl e).
Proof.
  intros Hk Hq H1 Hu. rewrite script_eq, (polling_first c w k).
  - unfold detected, call, emit, raise. rewrite !motion_bind_eq, Hu. reflexivity.
  - rewrite length_seq. lia.
  - intros j Hj. apply Hq. lia.
  - done.
Qed.

Lemma script_request_failure_witness :
  script sample_conf (sample_world 0 (Some (OtherException "URLError")) 12) =
  ([Setmode; Setup 4; UsernamePwSet "user" "secret"; GpioInput 4;
    UrlOpen "https://api.thingspeak.com/update?key=KEY&field1=1"],
   inl (OtherException "URLError")).
Proof.
  apply (script_request_failure sample_conf
           (sample_world 0 (Some (OtherException "URLError")) 12) 0
           (OtherException "URLError")); [lia| |reflexivity..].
  intros i Hi. lia.
Defined.

(** X17: however the pin behaves and whatever fails, one run polls the pin
    at most 119 times, makes at most one request, and sleeps one second at
    a time. *)
Theorem script_bounds c w :
  (length (polls (trace (script c w))) ≤ 119)%nat ∧
  (length (requests (trace (script c w))) ≤ 1)%nat ∧
  Forall (λ n, n = 1) (sleeps (trace (script c w))).
Proof.
  unfold trace. rewrite script_eq. cbn [fst].
  destruct (polling_bounds c w (seq 1 119) 0) as (Hp & Hr & Hs).
  rewrite length_seq in Hp. by repeat split.
Qed.



(** X19: a message that calls for no alert is printed and the client
    disconnects; the SMS API is not called. *)
Theorem on_message_no_alert c w topic payload :
  alerts (clock_hour w) payload = false →
  on_message c w topic payload =
  ([Print ("Topic:  " +:+ topic +:+ newline +:+ "Message: " +:+ payload); Disconnect],
   inr ()).
Proof. intros Ha. by rewrite on_message_eq, Ha. Qed.

Lemma on_message_no_alert_witness :
  sms (trace (on_message sample_conf (sample_world 0 None 12) "/motion" "0")) = [] ∧
  disconnects (trace (on_message sample_conf (sample_world 0 None 12) "/motion" "0")) = [()].
Proof.
  rewrite (on_message_no_alert sample_conf (sample_world 0 None 12) "/motion" "0");
    [split|]; reflexivity.
Defined.

(** X20: [on_message] disconnects the client exactly when it returns: an
    exception of the connector leaves the client connected. *)
Theorem on_message_disconnects c w topic payload :
  disconnects (trace (on_message c w topic payload)) =
  match outcome (on_message c w topic payload) with
  | inr _ => [()]
  | inl _ => []
  end.
Proof.
  rewrite on_message_eq. cbv zeta. unfold trace, outcome.
  destruct (alerts (clock_hour w) payload); [|reflexivity].
  destruct (Mprofi.add_message _ _ _).2 as [e|[]]; cbn [fst snd].
  { change (?x :: ?t) with ([x] ++ t). by rewrite disconnects_app, disconnects_sms. }
  destruct (Mprofi.send _ _ _ _).2 as [e|v]; cbn [fst snd];
    change (?x :: ?t) with ([x] ++ t);
    by rewrite !disconnects_app, !disconnects_sms.
Qed.

(** X21: an alert with a recipient and a text configured makes exactly
    one request to the SMS API: the message alone, to the [send] endpoint,
    carrying the configured reference. *)
Theorem on_message_alert c w topic payload :
  alerts (clock_hour w) payload = true →
  mprofi_recipient c ≠ EmptyString → mprofi_message c ≠ EmptyString →
  sms (trace (on_message c w topic payload)) =
  [Mprofi.Post "https://api.mprofi.pl/1.0/send/"
     (Mprofi.FormMessage
        (let d := {[ Mprofi.KStr "recipient" := Mprofi.PStr (mprofi_recipient c);
                     Mprofi.KStr "message" := Mprofi.PStr (mprofi_message c) ]} in
         match mprofi_ref c with
         | Some r => <[Mprofi.KStr "reference" := r]> d
         | None => d
         end))].
Proof.
  intros Ha Hr Hm. rewrite on_message_eq, Ha. cbv zeta.
  rewrite (ConnectorFacts.add_message_eq _ _ _ Hr Hm). cbn [fst snd fmap list_fmap app].
  rewrite MprofiFacts.send_nonempty by done. cbv zeta.
  unfold Mprofi.request_url, Mprofi.request_form, Mprofi.with_reference, Mprofi.init.
  cbn [Mprofi.payload Mprofi.store app].
  unfold trace.
  destruct (Mprofi.exchange _ _) as [e|v]; cbn [fst snd].
  all: try destruct (Mprofi.extracted _ v); cbn [fst snd].
  all: try destruct (Mprofi.absorb _ _).2; cbn [fst snd].
  all: destruct (mprofi_ref c); cbn [Mprofi.store]; unfold Mprofi.deref;
    rewrite ?lookup_insert_eq; cbn [from_option id]; rewrite ?lookup_insert_eq; reflexivity.
Qed.

Lemma on_message_alert_witness :
  sms (trace (on_message sample_conf (sample_world 0 None 12) "/motion" "1")) =
  [Mprofi.Post "https://api.mprofi.pl/1.0/send/"
     (Mprofi.FormMessage
        (<[Mprofi.KStr "reference" := Mprofi.PStr "motion"]>
           {[ Mprofi.KStr "recipient" := Mprofi.PStr "48111222333";
              Mprofi.KStr "message" := Mprofi.PStr "Motion detected!" ]}))].
Proof.
  apply (on_message_alert sample_conf (sample_world 0 None 12) "/motion" "1");
    [reflexivity|discriminate|discriminate].
Defined.

(** X22: an alert with no recipient or no text configured raises
    [ValueError] out of [on_message]: nothing is sent and the client stays
    connected. *)
Theorem on_message_unconfigured c w topic payload :
  alerts (clock_hour w) payload = true →
  mprofi_recipient c = EmptyString ∨ mprofi_message c = EmptyString →
  sms (trace (on_message c w topic payload)) = [] ∧
  disconnects (trace (on_message c w topic payload)) = [] ∧
  ∃ text, outcome (on_message c w topic payload) = inl (Connector (Mprofi.ValueError text)).
Proof.
  intros Ha He. rewrite on_message_eq, Ha. cbv zeta. unfold Mprofi.add_message.
  destruct (decide (mprofi_recipient c = EmptyString)); [by repeat split; eexists|].
  destruct (decide (mprofi_message c = EmptyString)); [by repeat split; eexists|].
  by destruct He.
Qed.

Lemma on_message_unconfigured_witness :
  sms (trace (on_message no_recipient_conf (sample_world 0 None 12) "/motion" "1")) = [] ∧
  disconnects (trace (on_message no_recipient_conf (sample_world 0 None 12) "/motion" "1")) = [] ∧
  ∃ text, outcome (on_message no_recipient_conf (sample_world 0 None 12) "/motion" "1")
          = inl (Connector (Mprofi.ValueError text)).
Proof.
  apply (on_message_unconfigured no_recipient_conf (sample_world 0 None 12) "/motion" "1");
    [reflexivity|left; reflexivity].
Defined.

End MotionFacts.

(* ===================================================================== *)
(** * More about the sensor delivery loop                                 *)
(* ===================================================================== *)

Module CycleFacts.
Import PyFloat Dht DhtFacts.

(** X23: a cycle in which every read and every delivery goes through: the
    four pins are read in order, the HTTP request is made and closed, the
    six messages are published in one call, and the loop sleeps 600
    seconds. *)
Theorem iteration_delivers c fe w RH T RH2 T2 RH3 T3 RH4 T4 :
  batch w = Some ((RH, T), (RH2, T2), (RH3, T3), (RH4, T4)) →
  urlopen w = None → close w = None → publish_multiple w = None →
  iteration c fe w =
  ([ReadRetry 2; ReadRetry 3; ReadRetry 4; ReadRetry 17;
    UrlOpen (thingspeak_baseURL c +:+ query T RH T2 RH2 T3 RH3 T4 RH4); Close;
    PublishMultiple (msgs T T2 RH2 T3 RH3 T4) (mqtt_server c) (mqtt_port c)
      EmptyString 60 (mqtt_uname c, mqtt_pw c);
    Sleep 600],
   inr ()).
Proof.
  intros Hb Hu Hc Hp. rewrite iteration_eq, (cycle_acquired _ _ _ _ _ _ _ _ _ _ _ Hb).
  cbv zeta. rewrite deliver_eq, Hu, Hc, Hp. reflexivity.
Qed.

Lemma iteration_delivers_witness :
  iteration sample_conf sample_format_exc (World sample_read None None None) =
  ([ReadRetry 2; ReadRetry 3; ReadRetry 4; ReadRetry 17;
    UrlOpen (thingspeak_baseURL sample_conf
             +:+ query "22.5" "61.3" "19.0" "55.5" "21.4" "48.0" "17.8" "70.2"); Close;
    PublishMultiple (msgs "22.5" "19.0" "55.5" "21.4" "48.0" "17.8") "broker.local" 1883
      EmptyString 60 ("user"%string, "secret"%string);
    Sleep 600],
   inr ()).
Proof.
  apply (iteration_delivers sample_conf sample_format_exc (World sample_read None None None)
           "61.3" "22.5" "55.5" "19.0" "48.0" "21.4" "70.2" "17.8");
    [vm_compute; reflexivity|reflexivity..].
Defined.

(** X24: the humidity of the first and of the last channel goes to the
    HTTP request only: two cycles that differ in nothing else make the
    same broker call. *)
Theorem broker_ignores_outer_humidity c fe w1 w2 RH RH' T RH2 T2 RH3 T3 RH4 RH4' T4 :
  batch w1 = Some ((RH, T), (RH2, T2), (RH3, T3), (RH4, T4)) →
  batch w2 = Some ((RH', T), (RH2, T2), (RH3, T3), (RH4', T4)) →
  delivered w1 = delivered w2 →
  broker_calls (trace (iteration c fe w1)) = broker_calls (trace (iteration c fe w2)).
Proof.
  intros H1 H2 Hd. rewrite !broker_calls_iteration, H1, H2. revert Hd. unfold delivered.
  destruct (urlopen w1), (close w1), (urlopen w2), (close w2); done.
Qed.

Lemma broker_ignores_outer_humidity_witness :
  broker_calls (trace (iteration sample_conf sample_format_exc
                         (World sample_read None None None))) =
  broker_calls (trace (iteration sample_conf sample_format_exc
                         (World (λ pin, if pin =? 2 then Returns (tenth 500) (tenth 225)
                                        else sample_read pin) None None None))).
Proof.
  apply (broker_ignores_outer_humidity sample_conf sample_format_exc
           (World sample_read None None None)
           (World (λ pin, if pin =? 2 then Returns (tenth 500) (tenth 225)
                          else sample_read pin) None None None)
           "61.3" "50.0" "22.5" "55.5" "19.0" "48.0" "21.4" "70.2" "70.2" "17.8");
    [vm_compute; reflexivity|vm_compute; reflexivity|reflexivity].
Defined.

(** X25: an iteration sleeps, 600 seconds and once, exactly when its cycle
    raised nothing past the inner handlers. *)
Theorem iteration_sleeps c fe w :
  sleeps (trace (iteration c fe w)) =
  match outcome (cycle c fe w) with inr _ => [600] | inl _ => [] end.
Proof.
  rewrite iteration_eq. unfold trace at 1. cbn [fst]. unfold sleeps. rewrite omap_app.
  destruct (batch w) as [[[[[RH T] [RH2 T2]] [RH3 T3]] [RH4 T4]]|] eqn:Hb.
  - pose proof (inner_try_trace c fe w RH T RH2 T2 RH3 T3 RH4 T4) as Hin.
    rewrite (cycle_acquired _ _ _ _ _ _ _ _ _ _ _ Hb). cbv zeta in *.
    destruct Hin as (_ & _ & _ & Hs).
    destruct (others_reads channels) as (_ & _ & _ & Rs).
    unfold sleeps, trace, outcome in *. cbn [fst snd]. rewrite !omap_app, Hs, Rs.
    by destruct (try_except _ _).2 as [e|[]].
  - destruct (cycle_failed c fe w Hb) as [e ->]. unfold trace, outcome. cbn [fst snd].
    destruct (others_reads (acquired_prefix w channels)) as (_ & _ & _ & Rs).
    unfold sleeps in Rs. by rewrite Rs.
Qed.

End CycleFacts.
